(** * Verity: admission control around a proof-of-work collaborator

    A shallow embedding of the request path of the Verity server
    (rateLimit.go, utils.go, server.go, routes.go, challengeManager.go,
    main.go) and the properties of its specification.

    Conventions.
    - Go's [int64] and [int] are [Z] with the two's-complement wrap-around
      written out ([wrap64]).
    - [time.Time] is a [Z], the instant in nanoseconds; [time.Duration] is a
      [Z] number of nanoseconds.  One request reads the clock once.
    - Go maps are [gmap]s; a map of pointers ([map[string]*ipRateLimit]) is a
      [gmap] whose entry is rewritten whenever the pointee is mutated.
    - Requests are handled one after the other: the locks of the source are
      not modelled.
    - The Go standard library decoders and the altcha library are parameters
      of the development (class [Collaborators]); module [Sample] gives an
      executable instance, used to run the handlers on concrete requests.
    - [float64] is IEEE 754 binary64 as specified by [SpecFloat], without
      fused multiply-add. *)

From Stdlib Require Import ZArith String Ascii List Lia Bool.
From Stdlib Require Import Floats.SpecFloat.
From stdpp Require Import gmap strings list.

Set Warnings "-register-all".
Local Open Scope string_scope.
Local Open Scope Z_scope.

(** ** Go primitives *)

(** Two's-complement wrap-around of a 64-bit signed integer. *)
Definition wrap64 (z : Z) : Z := (z + 2 ^ 63) mod 2 ^ 64 - 2 ^ 63.

Definition MaxInt64 : Z := 2 ^ 63 - 1.
Definition MinInt64 : Z := - 2 ^ 63.

(** [x++] and [x + 1] on an [int64] (or a 64-bit [int]). *)
Definition incr64 (x : Z) : Z := wrap64 (x + 1).

(** [x / y] on integers truncates toward zero. *)
Definition div64 (x y : Z) : Z := wrap64 (Z.quot x y).

(** [strings.Split(s, sep)] for a separator of one byte. *)
Fixpoint Split (s : string) (sep : ascii) : list string :=
  match s with
  | EmptyString => [EmptyString]
  | String a s' =>
      if Ascii.eqb a sep then EmptyString :: Split s' sep
      else match Split s' sep with
           | [] => [String a EmptyString]
           | h :: t => String a h :: t
           end
  end.

(** [strings.HasPrefix(s, prefix)]. *)
Definition HasPrefix (s pre : string) : bool := String.prefix pre s.

(** [strconv.ParseInt(s, 10, 64)]: an optional sign, then one or more decimal
    digits, value within [int64]; [None] is a non-nil error. *)
Definition digit_of (a : ascii) : option Z :=
  let n := Z.of_nat (nat_of_ascii a) in
  if (48 <=? n) && (n <=? 57) then Some (n - 48) else None.

Fixpoint parse_digits (s : string) (acc : Z) : option Z :=
  match s with
  | EmptyString => Some acc
  | String a s' =>
      match digit_of a with
      | Some d => parse_digits s' (10 * acc + d)
      | None => None
      end
  end.

Definition ParseInt (s : string) : option Z :=
  match s with
  | EmptyString => None
  | String a s' =>
      let '(neg, ds) :=
        if Ascii.eqb a "+"%char then (false, s')
        else if Ascii.eqb a "-"%char then (true, s')
        else (false, s) in
      match ds with
      | EmptyString => None
      | _ =>
          match parse_digits ds 0 with
          | None => None
          | Some n =>
              let v := if neg then - n else n in
              if (MinInt64 <=? v) && (v <=? MaxInt64) then Some v else None
          end
      end
  end.

(** Durations in nanoseconds. *)
Definition Millisecond : Z := 1000000.
Definition Second : Z := 1000 * Millisecond.
Definition Minute : Z := 60 * Second.

(** [t.After(u)], [t.Add(d)], [time.Since(t)] at clock reading [now]. *)
Definition After (t u : Z) : bool := u <? t.
Definition Add (t d : Z) : Z := t + d.
Definition Since (now t : Z) : Z := now - t.

(** HTTP status codes of net/http used by the server. *)
Definition StatusOK : Z := 200.
Definition StatusBadRequest : Z := 400.
Definition StatusUnauthorized : Z := 401.
Definition StatusForbidden : Z := 403.
Definition StatusConflict : Z := 409.
Definition StatusTooManyRequests : Z := 429.
Definition StatusInternalServerError : Z := 500.

(** ** IEEE 754 binary64, as Go's [float64] *)

Module Float64.
Definition prec : Z := 53.
Definition emax : Z := 1024.

(** [float64(n)] for an integer [n]: round to nearest, ties to even. *)
Definition of_int (n : Z) : spec_float := binary_normalize prec emax n 0 false.

(** The literal [1.0]. *)
Definition one : spec_float := of_int 1.

(** The literal [0.1]: the double nearest to one tenth,
    3602879701896397 * 2^-55. *)
Definition tenth : spec_float := S754_finite false 7205759403792794 (-56).

Definition mul : spec_float -> spec_float -> spec_float := SFmul prec emax.
Definition add : spec_float -> spec_float -> spec_float := SFadd prec emax.

(** [int64(f)]: truncation toward zero; a value outside [int64], an
    infinity or a NaN gives the amd64 "integer indefinite" value. *)
Definition to_int64 (f : spec_float) : Z :=
  match f with
  | S754_zero _ => 0
  | S754_finite s m e =>
      let a := match e with
               | Zneg p => Z.shiftr (Zpos m) (Zpos p)
               | _ => Z.shiftl (Zpos m) e
               end in
      let v := if s then - a else a in
      if (MinInt64 <=? v) && (v <=? MaxInt64) then v else MinInt64
  | _ => MinInt64
  end.
End Float64.

(** The state of the shift after [k >= 1] steps from [(M, false, false)]:
    the bits shifted out are the round bit, then [low]; the sticky bit says whether
    [low] is non-zero. *)
Definition shifted (M : Z) (k : nat) (mrs : shr_record) : Prop :=
  exists low,
    0 <= shr_m mrs /\
    0 <= low < 2 ^ Z.of_nat k /\
    M = shr_m mrs * 2 ^ Z.of_nat (S k) + Z.b2z (shr_r mrs) * 2 ^ Z.of_nat k + low /\
    shr_s mrs = negb (low =? 0).

(** ** Data model *)

(** server.go: [StatsEntry]. *)
Record StatsEntry := {
  TotalChallenges : Z;
  SolvedChallenges : Z;
  FailedChallenges : Z;
  IPThrottleCount : gmap string Z
}.

(** The zero value a missing map key reads as. *)
Definition zeroStats : StatsEntry :=
  {| TotalChallenges := 0; SolvedChallenges := 0; FailedChallenges := 0;
     IPThrottleCount := ∅ |}.

(** utils.go: [ipRateLimit]. *)
Record ipRateLimit := { Count : Z; ResetAt : Z }.

(** config: [ServerConfig] (the fields the request path reads). *)
Record ServerConfig := {
  HMACKey : string;
  Algorithm : string;
  Complexity : Z;
  ExpireTime : string;
  APIKeys : gmap string (list string);
  Stats : gmap string StatsEntry
}.

(** server.go: [Server]. *)
Record Server := {
  config : ServerConfig;
  ipRequestCount : gmap string Z;
  ipLastRequest : gmap string Z
}.

(** server.go: [Response]. *)
Record Response := { Code : Z; Message : string }.

(** rateLimit.go: the tunables of the rate limiter. *)
Definition RequestLimitWindow : Z := 10 * Minute.
Definition MaxRequestsPerIP : Z := 100.

(** challengeManager.go: [ChallengeManager] (the Replay Guard). *)
Record ChallengeManager := {
  solvedChallenges : gmap string Z;
  expireDuration : Z
}.

(** rateLimit.go: [RateLimiter]. *)
Record RateLimiter := { ipLimits : gmap string ipRateLimit }.

(** A value or a non-nil Go [error] with its text. *)
Inductive result (A : Type) : Type :=
| Ok (a : A)
| Err (msg : string).
Arguments Ok {A} a.
Arguments Err {A} msg.

(** What [json.Unmarshal] stores in an [interface{}]. *)
Inductive JSONValue : Type :=
| JNull
| JBool (b : bool)
| JNumber (f : spec_float)
| JString (s : string)
| JArray (l : list JSONValue)
| JObject (fields : list (string * JSONValue)).

(** [v.(string)] in its two-result form, on the value read from a map: a
    missing key reads as the nil interface, which is not a string. *)
Definition assertString (v : option JSONValue) : option string :=
  match v with
  | Some (JString s) => Some s
  | _ => None
  end.

(** altcha: [ChallengeOptions], as filled by the issuance handler. *)
Record ChallengeOptions := {
  opt_Algorithm : string;
  opt_MaxNumber : Z;
  opt_HMACKey : string;
  opt_Expires : Z
}.

(** The routes registered in main.go. *)
Inductive Route := RouteRoot | RouteGetChallenge | RouteVerifyChallenge.

(** An inbound [http.Request] as it reaches the rate limiter: the route it
    matches, query values, headers under their canonical names, the peer
    address (as the RealIP middleware leaves it), and the body ([None] when
    reading it fails). *)
Record Request := {
  route : Route;
  Query : gmap string (list string);
  Header : gmap string (list string);
  RemoteAddr : string;
  Body : option string
}.

(** [url.Values.Get] and [http.Header.Get]: the first value, or the empty
    string. *)
Definition Get (vs : gmap string (list string)) (key : string) : string :=
  match vs !! key with
  | Some (v :: _) => v
  | _ => EmptyString
  end.

(** What a handler encodes into the response body. *)
Inductive Payload :=
| PResponse (r : Response)
| PChallenge (c : string)
| PPage (total solved failed : Z).

(** [http.ResponseWriter]: the Content-Type header, the status line once it
    is written, the encoded bodies in order. *)
Record ResponseWriter := {
  ContentType : string;
  wroteHeader : option Z;
  written : list Payload
}.

Definition newWriter : ResponseWriter :=
  {| ContentType := EmptyString; wroteHeader := None; written := [] |}.

Definition SetContentType (v : string) (w : ResponseWriter) : ResponseWriter :=
  {| ContentType := v; wroteHeader := wroteHeader w; written := written w |}.

(** [w.WriteHeader(status)]; a second call is ignored by net/http. *)
Definition WriteHeader (status : Z) (w : ResponseWriter) : ResponseWriter :=
  match wroteHeader w with
  | Some _ => w
  | None => {| ContentType := ContentType w; wroteHeader := Some status;
               written := written w |}
  end.

(** [json.NewEncoder(w).Encode(v)]: the first write sends status 200 when no
    status was written before. *)
Definition Encode (v : Payload) (w : ResponseWriter) : ResponseWriter :=
  let w' := WriteHeader StatusOK w in
  {| ContentType := ContentType w'; wroteHeader := wroteHeader w';
     written := written w' ++ [v] |}.

(** The status line the client receives. *)
Definition StatusCode (w : ResponseWriter) : Z :=
  match wroteHeader w with
  | Some c => c
  | None => StatusOK
  end.

(** The [{code, message}] documents of the response body. *)
Definition responses (w : ResponseWriter) : list Response :=
  omap (fun p => match p with PResponse r => Some r | _ => None end) (written w).

(** How a handler ends: it returns with the response written, or it panics. *)
Inductive Outcome :=
| Done (w : ResponseWriter)
| Panic (reason : string).

(** Calls into the proof-of-work collaborator, recorded for the analysis. *)
Inductive PowCall :=
| CallCreate (o : ChallengeOptions)
| CallVerify (payload key : string) (res : result bool).

(** The process state: the server, the rate limiter, the global challenge
    manager [cm], and the record of collaborator calls (newest first). *)
Record World := {
  server : Server;
  rateLimiter : RateLimiter;
  cm : ChallengeManager;
  powLog : list PowCall
}.

Definition setStats (c : ServerConfig) (st : gmap string StatsEntry) : ServerConfig :=
  {| HMACKey := HMACKey c; Algorithm := Algorithm c; Complexity := Complexity c;
     ExpireTime := ExpireTime c; APIKeys := APIKeys c; Stats := st |}.

Definition setServerStats (s : Server) (st : gmap string StatsEntry) : Server :=
  {| config := setStats (config s) st; ipRequestCount := ipRequestCount s;
     ipLastRequest := ipLastRequest s |}.

(** ** utils.go *)

(** [LimitByIP] at clock reading [now]: the verdict and the store after the
    call. *)
Definition LimitByIP (ip : string) (limit window : Z)
    (store : gmap string ipRateLimit) (now : Z) : bool * gmap string ipRateLimit :=
  let info :=
    match store !! ip with
    | Some i => i
    | None => {| Count := 0; ResetAt := Add now window |}
    end in
  let info :=
    if After now (ResetAt info)
    then {| Count := 0; ResetAt := Add now window |}
    else info in
  if limit <=? Count info then (false, <[ip := info]> store)
  else (true, <[ip := {| Count := incr64 (Count info); ResetAt := ResetAt info |}]> store).

(** Successive calls of [LimitByIP] for one address under the tunables of
    rateLimit.go, at the clock readings [ts]: the verdicts in order and the
    store after the last call. *)
Fixpoint LimitSeq (ip : string) (store : gmap string ipRateLimit) (ts : list Z)
    : list bool * gmap string ipRateLimit :=
  match ts with
  | [] => ([], store)
  | t :: ts' =>
      let '(v, store') := LimitByIP ip MaxRequestsPerIP RequestLimitWindow store t in
      let '(vs, store'') := LimitSeq ip store' ts' in
      (v :: vs, store'')
  end.

(** ** server.go *)

(** [writeErrorResponse]. *)
Definition writeErrorResponse (w : ResponseWriter) (message : string) (status : Z)
    : ResponseWriter :=
  let w := SetContentType "application/json" w in
  let w := WriteHeader status w in
  Encode (PResponse {| Code := 400; Message := message |}) w.

(** The scaling factor [1.0 + float64(count/10)*0.1]. *)
Definition factor (count : Z) : spec_float :=
  Float64.add Float64.one (Float64.mul (Float64.of_int (div64 count 10)) Float64.tenth).

(** [getAdjustedComplexity] at clock reading [now]. *)
Definition getAdjustedComplexity (s : Server) (ip : string) (now : Z) : Z * Server :=
  let exists_ := bool_decide (is_Some (ipRequestCount s !! ip)) in
  let count := default 0 (ipRequestCount s !! ip) in
  let count :=
    match ipLastRequest s !! ip with
    | Some lastTime => if 5 * Minute <? Since now lastTime then 0 else count
    | None => count
    end in
  let s' := {| config := config s;
               ipRequestCount := <[ip := incr64 count]> (ipRequestCount s);
               ipLastRequest := <[ip := now]> (ipLastRequest s) |} in
  let complexity := Complexity (config s) in
  if exists_ && (10 <? count)
  then (Float64.to_int64 (Float64.mul (Float64.of_int complexity) (factor count)), s')
  else (complexity, s').

(** ** challengeManager.go *)

Definition AddChallenge (c : ChallengeManager) (challenge : string) (expireAt : Z)
    : ChallengeManager :=
  {| solvedChallenges := <[challenge := expireAt]> (solvedChallenges c);
     expireDuration := expireDuration c |}.

Definition Exists (c : ChallengeManager) (challenge : string) : bool :=
  bool_decide (is_Some (solvedChallenges c !! challenge)).

(** [time.Now().UnixNano() / int64(time.Millisecond)] at clock reading
    [now]: the clock in milliseconds. *)
Definition UnixNano (t : Z) : Z := wrap64 t.
Definition nowMillis (now : Z) : Z := div64 (UnixNano now) Millisecond.

(** [cleanupExpired] at clock reading [now]: every entry whose value is below
    the clock in milliseconds is deleted. *)
Definition cleanupExpired (c : ChallengeManager) (now : Z) : ChallengeManager :=
  {| solvedChallenges := filter (fun kv => ¬ (kv.2 < nowMillis now)) (solvedChallenges c);
     expireDuration := expireDuration c |}.

(** ** Collaborators *)

(** What the request path calls outside this repository.

    Go standard library: [strings.TrimSpace], [base64.StdEncoding.DecodeString],
    [json.Unmarshal] into a [map[string]interface{}] ([None] is an error; the
    document [null] gives the empty map), [url.ParseQuery] (its error is
    dropped by the caller), the host of [net.SplitHostPort],
    [time.ParseDuration].

    altcha: [CreateChallenge] (with the randomness it draws) and
    [VerifySolution(payload, hmacKey, true)] at a clock reading. *)
Class Collaborators := {
  TrimSpace : string -> string;
  DecodeString : string -> option string;
  Unmarshal : string -> option (gmap string JSONValue);
  ParseQuery : string -> gmap string (list string);
  SplitHostPort : string -> option string;
  ParseDuration : string -> option Z;
  CreateChallenge : ChallengeOptions -> Z -> result string;
  VerifySolution : string -> string -> Z -> result bool
}.

(** ** The request path *)

Section Verity.

Context {E : Collaborators}.

(** utils.go: [GetRealIP]. *)
Definition GetRealIP (r : Request) : string :=
  let fromPeer :=
    let ip := Get (Header r) "X-Real-IP" in
    if negb (String.eqb ip EmptyString) then ip
    else match SplitHostPort (RemoteAddr r) with
         | Some host => host
         | None => RemoteAddr r
         end in
  let ip := Get (Header r) "X-Forwarded-For" in
  if negb (String.eqb ip EmptyString) then
    match Split ip ","%char with
    | first :: _ => TrimSpace first
    | [] => fromPeer
    end
  else fromPeer.

(** routes.go: [handleRoot]; the page shows the three totals. *)
Definition handleRoot (s : Server) (w : ResponseWriter) : ResponseWriter :=
  let sum (f : StatsEntry -> Z) :=
    map_fold (fun _ st acc => wrap64 (acc + f st)) 0 (Stats (config s)) in
  let w := SetContentType "text/html; charset=utf-8" w in
  Encode (PPage (sum TotalChallenges) (sum SolvedChallenges) (sum FailedChallenges)) w.

(** routes.go: [handleGetChallenge]; [apiKey] is the value the request
    context holds under [APIKeyContextKey], [rnd] the randomness drawn by
    the collaborator. *)
Definition handleGetChallenge (wd : World) (apiKey : option string) (r : Request)
    (now rnd : Z) (w : ResponseWriter) : World * Outcome :=
  match apiKey with
  | None =>
      (wd, Done (writeErrorResponse w "Missing API key in context"
                   StatusInternalServerError))
  | Some apiKey =>
      let s := server wd in
      let ip := GetRealIP r in
      let duration := default (5 * Minute) (ParseDuration (ExpireTime (config s))) in
      let expires := Add now duration in
      let '(complexity, s) := getAdjustedComplexity s ip now in
      let challengeOptions :=
        {| opt_Algorithm := Algorithm (config s); opt_MaxNumber := complexity;
           opt_HMACKey := HMACKey (config s); opt_Expires := expires |} in
      let log := CallCreate challengeOptions :: powLog wd in
      match CreateChallenge challengeOptions rnd with
      | Err e =>
          ({| server := s; rateLimiter := rateLimiter wd; cm := cm wd; powLog := log |},
           Done (writeErrorResponse w ("Failed to create challenge: " ++ e)
                   StatusInternalServerError))
      | Ok challenge =>
          let stats := default zeroStats (Stats (config s) !! apiKey) in
          let stats :=
            {| TotalChallenges := incr64 (TotalChallenges stats);
               SolvedChallenges := SolvedChallenges stats;
               FailedChallenges := FailedChallenges stats;
               IPThrottleCount :=
                 <[ip := incr64 (default 0 (IPThrottleCount stats !! ip))]>
                   (IPThrottleCount stats) |} in
          let s := setServerStats s (<[apiKey := stats]> (Stats (config s))) in
          let w := SetContentType "application/json" w in
          ({| server := s; rateLimiter := rateLimiter wd; cm := cm wd; powLog := log |},
           Done (Encode (PChallenge challenge) w))
      end
  end.

(** routes.go: [handleVerifyChallenge]. *)
Definition handleVerifyChallenge (wd : World) (apiKey : option string) (r : Request)
    (now : Z) (w : ResponseWriter) : World * Outcome :=
  match apiKey with
  | None =>
      (wd, Done (writeErrorResponse w "Missing API key in context"
                   StatusInternalServerError))
  | Some apiKey =>
  match Body r with
  | None => (wd, Done (writeErrorResponse w "Failed to read request body" StatusBadRequest))
  | Some bodyBytes =>
  let encodedPayload := TrimSpace bodyBytes in
  match DecodeString encodedPayload with
  | None => (wd, Done (writeErrorResponse w "Invalid base64 encoding" StatusBadRequest))
  | Some decodedBytes =>
  match Unmarshal decodedBytes with
  | None => (wd, Done (writeErrorResponse w "Invalid JSON payload" StatusBadRequest))
  | Some payload =>
  match assertString (payload !! "challenge") with
  | None => (wd, Done (writeErrorResponse w "Invalid challenge format" StatusBadRequest))
  | Some challengeID =>
  (* payload["salt"].(string): the one-result assertion panics *)
  match payload !! "salt" with
  | None => (wd, Panic "interface conversion: interface {} is nil, not string")
  | Some (JString salt) =>
      let splitSalt := Split salt "?"%char in
      match splitSalt with
      | [] | [_] =>
          (wd, Done (writeErrorResponse w "Invalid challenge format" StatusBadRequest))
      | _ :: query :: _ =>
          let params := ParseQuery query in
          match ParseInt (Get params "expires") with
          | None =>
              (wd, Done (writeErrorResponse w "Invalid challenge format" StatusBadRequest))
          | Some challengeExpire =>
              if challengeExpire <? 1 then
                (wd, Done (writeErrorResponse w "Invalid challenge format" StatusBadRequest))
              else if Exists (cm wd) challengeID then
                (wd, Done (writeErrorResponse w "Challenge already solved" StatusConflict))
              else
                let s := server wd in
                let res := VerifySolution encodedPayload (HMACKey (config s)) now in
                let log := CallVerify encodedPayload (HMACKey (config s)) res :: powLog wd in
                match res with
                | Err e =>
                    ({| server := s; rateLimiter := rateLimiter wd; cm := cm wd;
                        powLog := log |},
                     Done (writeErrorResponse w ("Verification error: " ++ e)
                             StatusInternalServerError))
                | Ok verified =>
                    let w := SetContentType "application/json" w in
                    let stats := default zeroStats (Stats (config s) !! apiKey) in
                    if verified then
                      let cm' := AddChallenge (cm wd) challengeID challengeExpire in
                      let stats :=
                        {| TotalChallenges := TotalChallenges stats;
                           SolvedChallenges := incr64 (SolvedChallenges stats);
                           FailedChallenges := FailedChallenges stats;
                           IPThrottleCount := IPThrottleCount stats |} in
                      let s := setServerStats s (<[apiKey := stats]> (Stats (config s))) in
                      ({| server := s; rateLimiter := rateLimiter wd; cm := cm';
                          powLog := log |},
                       Done (Encode (PResponse {| Code := StatusOK; Message := "OK" |}) w))
                    else
                      let stats :=
                        {| TotalChallenges := TotalChallenges stats;
                           SolvedChallenges := SolvedChallenges stats;
                           FailedChallenges := incr64 (FailedChallenges stats);
                           IPThrottleCount := IPThrottleCount stats |} in
                      let s := setServerStats s (<[apiKey := stats]> (Stats (config s))) in
                      ({| server := s; rateLimiter := rateLimiter wd; cm := cm wd;
                          powLog := log |},
                       Done (Encode (PResponse {| Code := StatusBadRequest;
                                                  Message := "Invalid payload" |}) w))
                end
          end
      end
  | Some _ => (wd, Panic "interface conversion: interface {} is not string")
  end end end end end end.

(** rateLimit.go: [APIKeyMiddleware] around the handler [next], which
    receives the API key stored in the request context. *)
Definition APIKeyMiddleware (wd : World) (r : Request) (w : ResponseWriter)
    (next : option string -> World * Outcome) : World * Outcome :=
  let apiKey := Get (Query r) "apiKey" in
  if String.eqb apiKey EmptyString then
    (wd, Done (writeErrorResponse w "Missing API key" StatusUnauthorized))
  else if negb (HasPrefix apiKey "vrty_") then
    (wd, Done (writeErrorResponse w "Invalid API key format" StatusUnauthorized))
  else
    match APIKeys (config (server wd)) !! apiKey with
    | None => (wd, Done (writeErrorResponse w "Invalid API key" StatusUnauthorized))
    | Some allowedOrigins =>
        let origin := Get (Header r) "Origin" in
        let valid :=
          negb (String.eqb origin EmptyString) &&
          existsb (fun allowedOrigin =>
                     String.eqb origin allowedOrigin || String.eqb allowedOrigin "*")
                  allowedOrigins in
        if negb valid then
          (wd, Done (writeErrorResponse w "Invalid origin" StatusForbidden))
        else next (Some apiKey)
    end.

(** rateLimit.go: [RateLimitMiddleware] around [next]. *)
Definition RateLimitMiddleware (wd : World) (r : Request) (now : Z) (w : ResponseWriter)
    (next : World -> World * Outcome) : World * Outcome :=
  let ip := GetRealIP r in
  let '(allowed, store) :=
    LimitByIP ip MaxRequestsPerIP RequestLimitWindow (ipLimits (rateLimiter wd)) now in
  let wd := {| server := server wd; rateLimiter := {| ipLimits := store |};
               cm := cm wd; powLog := powLog wd |} in
  if negb allowed then
    (wd, Done (writeErrorResponse w "Rate limit exceeded" StatusTooManyRequests))
  else next wd.

(** main.go: the router; the rate limiter wraps every route, the API-key
    middleware wraps the two API routes. *)
Definition ServeHTTP (wd : World) (r : Request) (now rnd : Z) : World * Outcome :=
  let w := newWriter in
  RateLimitMiddleware wd r now w (fun wd =>
    match route r with
    | RouteRoot => (wd, Done (handleRoot (server wd) w))
    | RouteGetChallenge =>
        APIKeyMiddleware wd r w (fun apiKey => handleGetChallenge wd apiKey r now rnd w)
    | RouteVerifyChallenge =>
        APIKeyMiddleware wd r w (fun apiKey => handleVerifyChallenge wd apiKey r now w)
    end).

(** What happens to the process: a request is served, or the ticker of
    [cleanupLoop] fires. *)
Inductive Event :=
| EvRequest (r : Request) (now rnd : Z)
| EvSweep (now : Z).

Definition step (wd : World) (e : Event) : World :=
  match e with
  | EvRequest r now rnd => (ServeHTTP wd r now rnd).1
  | EvSweep now =>
      {| server := server wd; rateLimiter := rateLimiter wd;
         cm := cleanupExpired (cm wd) now; powLog := powLog wd |}
  end.

Definition run (wd : World) (es : list Event) : World := fold_left step es wd.

(** main.go: the state once [NewServer], [NewRateLimiter] and
    [NewChallengeManager] have run on a loaded configuration. *)
Definition initWorld (c : ServerConfig) (d : Z) : World :=
  {| server := {| config := c; ipRequestCount := ∅; ipLastRequest := ∅ |};
     rateLimiter := {| ipLimits := ∅ |};
     cm := {| solvedChallenges := ∅; expireDuration := d |};
     powLog := [] |}.

(** The challenge identifier a posted payload carries, as the verification
    handler reads it. *)
Definition challengeOf (encodedPayload : string) : option string :=
  match DecodeString encodedPayload with
  | Some decodedBytes =>
      match Unmarshal decodedBytes with
      | Some payload => assertString (payload !! "challenge")
      | None => None
      end
  | None => None
  end.

(** The collaborator has verified, as valid, a payload carrying [id]. *)
Definition verifiedValid (log : list PowCall) (id : string) : Prop :=
  exists payload key,
    CallVerify payload key (Ok true) ∈ log /\ challengeOf payload = Some id.

End Verity.

(** The per-credential stats of a state. *)
Definition statsOf (wd : World) : gmap string StatsEntry := Stats (config (server wd)).

(** "issued >= solved + failed", for every credential. *)
Definition issuedCoversResolved (wd : World) : Prop :=
  forall key st, statsOf wd !! key = Some st ->
    SolvedChallenges st + FailedChallenges st <= TotalChallenges st.

(** No counter of the process differs between two states: the stats, the
    per-address counts of the complexity controller and of the rate limiter. *)
Definition sameCounters (wd wd' : World) : Prop :=
  statsOf wd' = statsOf wd /\
  ipRequestCount (server wd') = ipRequestCount (server wd) /\
  ipLimits (rateLimiter wd') = ipLimits (rateLimiter wd).

(** The answer of a handler that returned. *)
Definition writerOf (o : Outcome) : option ResponseWriter :=
  match o with
  | Done w => Some w
  | Panic _ => None
  end.

(** The writer a successful verification returns. *)
Definition okWriter : ResponseWriter :=
  Encode (PResponse {| Code := StatusOK; Message := "OK" |})
    (SetContentType "application/json" newWriter).

(** The writer of a replay rejection. *)
Definition replayWriter : ResponseWriter :=
  writeErrorResponse newWriter "Challenge already solved" StatusConflict.

(** The writer of a failed verification. *)
Definition failedWriter : ResponseWriter :=
  Encode (PResponse {| Code := StatusBadRequest; Message := "Invalid payload" |})
    (SetContentType "application/json" newWriter).

(** The writer of a successful issuance. *)
Definition challengeWriter (challenge : string) : ResponseWriter :=
  Encode (PChallenge challenge) (SetContentType "application/json" newWriter).

(** The three updates of a stats entry the handlers make. *)
Definition issuedOne (ip : string) (st : StatsEntry) : StatsEntry :=
  {| TotalChallenges := incr64 (TotalChallenges st);
     SolvedChallenges := SolvedChallenges st;
     FailedChallenges := FailedChallenges st;
     IPThrottleCount :=
       <[ip := incr64 (default 0 (IPThrottleCount st !! ip))]> (IPThrottleCount st) |}.

Definition solvedOne (st : StatsEntry) : StatsEntry :=
  {| TotalChallenges := TotalChallenges st;
     SolvedChallenges := incr64 (SolvedChallenges st);
     FailedChallenges := FailedChallenges st;
     IPThrottleCount := IPThrottleCount st |}.

Definition failedOne (st : StatsEntry) : StatsEntry :=
  {| TotalChallenges := TotalChallenges st;
     SolvedChallenges := SolvedChallenges st;
     FailedChallenges := incr64 (FailedChallenges st);
     IPThrottleCount := IPThrottleCount st |}.

(** ** A concrete set of collaborators

    Executable stand-ins used to run the request path on concrete requests:
    ASCII white space, standard padded base64, JSON documents without
    [\u] escapes and with integer numbers, query strings without percent
    escapes, and a toy proof of work whose valid signature is the HMAC key
    followed by the challenge identifier. *)

Module Sample.

Definition isSpace (a : ascii) : bool :=
  let n := Z.of_nat (nat_of_ascii a) in
  ((9 <=? n) && (n <=? 13)) || (n =? 32).

Fixpoint trimLeft (l : list ascii) : list ascii :=
  match l with
  | a :: l' => if isSpace a then trimLeft l' else l
  | [] => []
  end.

Definition trimSpace (s : string) : string :=
  string_of_list_ascii
    (rev (trimLeft (rev (trimLeft (list_ascii_of_string s))))).

(** The value of a character of the standard base64 alphabet. *)
Definition b64 (a : ascii) : option Z :=
  let n := Z.of_nat (nat_of_ascii a) in
  if (65 <=? n) && (n <=? 90) then Some (n - 65)
  else if (97 <=? n) && (n <=? 122) then Some (n - 71)
  else if (48 <=? n) && (n <=? 57) then Some (n + 4)
  else if n =? 43 then Some 62
  else if n =? 47 then Some 63
  else None.

Definition byte (z : Z) : ascii := ascii_of_nat (Z.to_nat (z mod 256)).

Definition isPad (a : ascii) : bool := Ascii.eqb a "="%char.

Fixpoint decodeQuads (l : list ascii) : option (list ascii) :=
  match l with
  | [] => Some []
  | a :: b :: c :: d :: rest =>
      match b64 a, b64 b with
      | Some x, Some y =>
          let b1 := byte (x * 4 + y / 16) in
          if isPad c && isPad d then
            match rest with [] => Some [b1] | _ => None end
          else
            match b64 c with
            | None => None
            | Some z =>
                let b2 := byte (y * 16 + z / 4) in
                if isPad d then
                  match rest with [] => Some [b1; b2] | _ => None end
                else
                  match b64 d, decodeQuads rest with
                  | Some t, Some more => Some (b1 :: b2 :: byte (z * 64 + t) :: more)
                  | _, _ => None
                  end
            end
      | _, _ => None
      end
  | _ => None
  end.

Definition decodeString (s : string) : option string :=
  string_of_list_ascii <$> decodeQuads (list_ascii_of_string s).

(** JSON. *)
Fixpoint skipWs (l : list ascii) : list ascii :=
  match l with
  | a :: l' => if isSpace a then skipWs l' else l
  | [] => []
  end.

Definition quote : ascii := ascii_of_nat 34.

Definition unescape (a : ascii) : option ascii :=
  if Ascii.eqb a quote then Some quote
  else if Ascii.eqb a "\"%char then Some "\"%char
  else if Ascii.eqb a "/"%char then Some "/"%char
  else if Ascii.eqb a "n"%char then Some (ascii_of_nat 10)
  else if Ascii.eqb a "t"%char then Some (ascii_of_nat 9)
  else if Ascii.eqb a "r"%char then Some (ascii_of_nat 13)
  else None.

(** The characters of a string literal after its opening quote. *)
Fixpoint parseChars (l : list ascii) : option (string * list ascii) :=
  match l with
  | [] => None
  | a :: l' =>
      if Ascii.eqb a quote then Some (EmptyString, l')
      else if Ascii.eqb a "\"%char then
        match l' with
        | e :: l'' =>
            match unescape e, parseChars l'' with
            | Some c, Some (s, rest) => Some (String c s, rest)
            | _, _ => None
            end
        | [] => None
        end
      else if Z.of_nat (nat_of_ascii a) <? 32 then None
      else match parseChars l' with
           | Some (s, rest) => Some (String a s, rest)
           | None => None
           end
  end.

Fixpoint spanDigits (l : list ascii) : list ascii * list ascii :=
  match l with
  | a :: l' =>
      match digit_of a with
      | Some _ => let '(ds, rest) := spanDigits l' in (a :: ds, rest)
      | None => ([], l)
      end
  | [] => ([], [])
  end.

Definition parseNumber (l : list ascii) : option (JSONValue * list ascii) :=
  let '(neg, l1) :=
    match l with
    | a :: l' => if Ascii.eqb a "-"%char then (true, l') else (false, l)
    | [] => (false, l)
    end in
  let '(ds, rest) := spanDigits l1 in
  match ds, parse_digits (string_of_list_ascii ds) 0 with
  | _ :: _, Some n => Some (JNumber (Float64.of_int (if neg then - n else n)), rest)
  | _, _ => None
  end.

Definition literal (word : string) (v : JSONValue) (l : list ascii)
    : option (JSONValue * list ascii) :=
  let w := list_ascii_of_string word in
  if bool_decide (take (length w) l = w) then Some (v, drop (length w) l) else None.

Fixpoint parseValue (fuel : nat) (l : list ascii) : option (JSONValue * list ascii) :=
  match fuel with
  | O => None
  | S fuel =>
      match skipWs l with
      | [] => None
      | a :: l' =>
          if Ascii.eqb a "{"%char then
            match skipWs l' with
            | c :: l'' =>
                if Ascii.eqb c "}"%char then Some (JObject [], l'')
                else parseMembers fuel (c :: l'') []
            | [] => None
            end
          else if Ascii.eqb a "["%char then
            match skipWs l' with
            | c :: l'' =>
                if Ascii.eqb c "]"%char then Some (JArray [], l'')
                else parseElements fuel (c :: l'') []
            | [] => None
            end
          else if Ascii.eqb a quote then
            match parseChars l' with
            | Some (s, rest) => Some (JString s, rest)
            | None => None
            end
          else if Ascii.eqb a "t"%char then literal "true" (JBool true) (a :: l')
          else if Ascii.eqb a "f"%char then literal "false" (JBool false) (a :: l')
          else if Ascii.eqb a "n"%char then literal "null" JNull (a :: l')
          else parseNumber (a :: l')
      end
  end
with parseMembers (fuel : nat) (l : list ascii) (acc : list (string * JSONValue))
    : option (JSONValue * list ascii) :=
  match fuel with
  | O => None
  | S fuel =>
      match skipWs l with
      | q :: l1 =>
          if Ascii.eqb q quote then
            match parseChars l1 with
            | Some (k, l2) =>
                match skipWs l2 with
                | c :: l3 =>
                    if Ascii.eqb c ":"%char then
                      match parseValue fuel l3 with
                      | Some (v, l4) =>
                          match skipWs l4 with
                          | d :: l5 =>
                              if Ascii.eqb d ","%char
                              then parseMembers fuel l5 (acc ++ [(k, v)])
                              else if Ascii.eqb d "}"%char
                              then Some (JObject (acc ++ [(k, v)]), l5)
                              else None
                          | [] => None
                          end
                      | None => None
                      end
                    else None
                | [] => None
                end
            | None => None
            end
          else None
      | [] => None
      end
  end
with parseElements (fuel : nat) (l : list ascii) (acc : list JSONValue)
    : option (JSONValue * list ascii) :=
  match fuel with
  | O => None
  | S fuel =>
      match parseValue fuel l with
      | Some (v, l1) =>
          match skipWs l1 with
          | d :: l2 =>
              if Ascii.eqb d ","%char then parseElements fuel l2 (acc ++ [v])
              else if Ascii.eqb d "]"%char then Some (JArray (acc ++ [v]), l2)
              else None
          | [] => None
          end
      | None => None
      end
  end.

(** Into a map: an object (the last of two equal keys wins) or [null]. *)
Definition unmarshal (s : string) : option (gmap string JSONValue) :=
  let l := list_ascii_of_string s in
  match parseValue (S (length l)) l with
  | Some (JObject fields, rest) =>
      match skipWs rest with
      | [] => Some (list_to_map (rev fields))
      | _ => None
      end
  | Some (JNull, rest) =>
      match skipWs rest with
      | [] => Some ∅
      | _ => None
      end
  | _ => None
  end.

(** Query strings: [k=v] pairs separated by [&]. *)
Definition splitPair (s : string) : string * string :=
  match Split s "="%char with
  | k :: v :: _ => (k, v)
  | k :: [] => (k, EmptyString)
  | [] => (EmptyString, EmptyString)
  end.

Definition parseQuery (q : string) : gmap string (list string) :=
  fold_left
    (fun m seg =>
       if String.eqb seg EmptyString then m
       else let '(k, v) := splitPair seg in
            <[k := (default [] (m !! k) ++ [v])%list]> m)
    (Split q "&"%char) ∅.

(** [host:port] with a host free of colons. *)
Definition splitHostPort (s : string) : option string :=
  match Split s ":"%char with
  | [host; _] => Some host
  | _ => None
  end.

(** Durations written as a number of seconds, minutes or hours. *)
Definition parseDuration (s : string) : option Z :=
  let l := list_ascii_of_string s in
  let '(ds, unit) := spanDigits l in
  match ds, parse_digits (string_of_list_ascii ds) 0 with
  | _ :: _, Some n =>
      let u := string_of_list_ascii unit in
      if String.eqb u "s" then Some (n * Second)
      else if String.eqb u "m" then Some (n * Minute)
      else if String.eqb u "h" then Some (n * 60 * Minute)
      else None
  | _, _ => None
  end.

Definition createChallenge (o : ChallengeOptions) (rnd : Z) : result string :=
  if opt_MaxNumber o <=? 0 then Err "invalid maximum number"
  else Ok ("challenge/" ++ opt_Algorithm o).

Definition verifySolution (payload key : string) (now : Z) : result bool :=
  match decodeString payload with
  | None => Err "illegal base64 data"
  | Some doc =>
      match unmarshal doc with
      | None => Err "invalid character"
      | Some m =>
          match assertString (m !! "challenge"), assertString (m !! "signature") with
          | Some c, Some sg => Ok (String.eqb sg (key ++ c))
          | _, _ => Ok false
          end
      end
  end.

Definition env : Collaborators :=
  {| TrimSpace := trimSpace; DecodeString := decodeString; Unmarshal := unmarshal;
     ParseQuery := parseQuery; SplitHostPort := splitHostPort;
     ParseDuration := parseDuration; CreateChallenge := createChallenge;
     VerifySolution := verifySolution |}.

End Sample.

(** ** Concrete requests *)

Module Scenario.

(** A solution document and its base64 form, as a client posts it:
    [{"algorithm":"SHA-256","challenge":"c0ffee","number":42,
      "salt":"abc?expires=4102444800","signature":"secretc0ffee"}]. *)
Definition goodPayload : string :=
  "eyJhbGdvcml0aG0iOiJTSEEtMjU2IiwiY2hhbGxlbmdlIjoiYzBmZmVlIiwibnVtYmVyIjo0Miwic2FsdCI6ImFiYz9leHBpcmVzPTQxMDI0NDQ4MDAiLCJzaWduYXR1cmUiOiJzZWNyZXRjMGZmZWUifQ==".

(** The same document with the signature ["forged"]. *)
Definition forgedPayload : string :=
  "eyJhbGdvcml0aG0iOiJTSEEtMjU2IiwiY2hhbGxlbmdlIjoiYzBmZmVlIiwibnVtYmVyIjo0Miwic2FsdCI6ImFiYz9leHBpcmVzPTQxMDI0NDQ4MDAiLCJzaWduYXR1cmUiOiJmb3JnZWQifQ==".

(** [{"challenge":"c0ffee"}]: no salt. *)
Definition noSaltPayload : string := "eyJjaGFsbGVuZ2UiOiJjMGZmZWUifQ==".

(** [{"challenge":"c0ffee","salt":7}]: a salt that is a number. *)
Definition numberSaltPayload : string := "eyJjaGFsbGVuZ2UiOiJjMGZmZWUiLCJzYWx0Ijo3fQ==".

(** [{"challenge":"c0ffee","salt":"abc?x=1"}]: no [expires]. *)
Definition noExpiresPayload : string :=
  "eyJjaGFsbGVuZ2UiOiJjMGZmZWUiLCJzYWx0IjoiYWJjP3g9MSJ9".

(** [{"challenge":"c0ffee","salt":"abc"}]: no query part. *)
Definition noQueryPayload : string := "eyJjaGFsbGVuZ2UiOiJjMGZmZWUiLCJzYWx0IjoiYWJjIn0=".

(** [not json]. *)
Definition notJSONPayload : string := "bm90IGpzb24=".

Definition apiKey : string := "vrty_00112233445566778899aabbccddeeff".
Definition origin : string := "https://example.org".
Definition peer : string := "203.0.113.7:4711".
Definition ip : string := "203.0.113.7".

Definition cfg : ServerConfig :=
  {| HMACKey := "secret"; Algorithm := "SHA-256"; Complexity := 50000;
     ExpireTime := "5m"; APIKeys := {[ apiKey := [origin] ]};
     Stats := {[ apiKey := zeroStats ]} |}.

(** The server right after start-up. *)
Definition world0 : World := initWorld cfg (5 * Minute).

(** Clock readings: a start instant and later ones. *)
Definition t0 : Z := 1700000000 * Second.

Definition request (rt : Route) (key : list string) (org : list string)
    (body : string) : Request :=
  {| route := rt; Query := {[ "apiKey" := key ]}; Header := {[ "Origin" := org ]};
     RemoteAddr := peer; Body := Some body |}.

Definition verifyRequest (body : string) : Request :=
  request RouteVerifyChallenge [apiKey] [origin] body.

Definition issueRequest : Request :=
  request RouteGetChallenge [apiKey] [origin] EmptyString.

(** A request without credential. *)
Definition anonymousRequest : Request :=
  {| route := RouteGetChallenge; Query := ∅; Header := ∅; RemoteAddr := peer;
     Body := Some EmptyString |}.

Definition serve : World -> Request -> Z -> Z -> World * Outcome :=
  ServeHTTP (E := Sample.env).

Definition verify : World -> option string -> Request -> Z -> ResponseWriter -> World * Outcome :=
  handleVerifyChallenge (E := Sample.env).

(** A server with base complexity [B] that has seen 25 recent requests from
    the address, the last one a minute before [t0 + Minute]. *)
Definition busyServer (B : Z) : Server :=
  {| config := {| HMACKey := "secret"; Algorithm := "SHA-256"; Complexity := B;
                  ExpireTime := "5m"; APIKeys := {[ apiKey := [origin] ]};
                  Stats := {[ apiKey := zeroStats ]} |};
     ipRequestCount := {[ ip := 25 ]};
     ipLastRequest := {[ ip := t0 ]} |}.

(** The state once the valid solution has been accepted. *)
Definition world1 : World := (serve world0 (verifyRequest goodPayload) t0 0).1.

End Scenario.

(** ** More of the code *)

(** [encoding/hex]: the two lower-case digits of a byte, and
    [hex.EncodeToString]. *)
Definition hexDigit (n : N) : ascii :=
  ascii_of_N (if (n <? 10)%N then 48 + n else 87 + n)%N.

Fixpoint EncodeToString (bs : list Byte.byte) : string :=
  match bs with
  | [] => EmptyString
  | b :: bs' =>
      String (hexDigit (Byte.to_N b / 16))
        (String (hexDigit (Byte.to_N b mod 16)) (EncodeToString bs'))
  end.

(** utils.go: [GenerateAPIKey]; [random] is what [rand.Read] leaves in the
    16-byte buffer, or its error. *)
Definition GenerateAPIKey (random : result (list Byte.byte)) : result string :=
  match random with
  | Err e => Err e
  | Ok bytes => Ok ("vrty_" ++ EncodeToString bytes)
  end.

(** A request with its X-Forwarded-For header set to [v]. *)
Definition withForwardedFor (r : Request) (v : string) : Request :=
  {| route := route r; Query := Query r;
     Header := <["X-Forwarded-For" := [v]]> (Header r);
     RemoteAddr := RemoteAddr r; Body := Body r |}.

(** Successive calls of [getAdjustedComplexity] for one address at the clock
    readings [ts]: the complexities in order and the server after the last
    call. *)
Fixpoint AdjustSeq (s : Server) (ip : string) (ts : list Z) : list Z * Server :=
  match ts with
  | [] => ([], s)
  | t :: ts' =>
      let '(c, s') := getAdjustedComplexity s ip t in
      let '(cs, s'') := AdjustSeq s' ip ts' in
      (c :: cs, s'')
  end.

(** Each clock reading is at most five minutes after the one before. *)
Fixpoint spaced (last : Z) (ts : list Z) : Prop :=
  match ts with
  | [] => True
  | t :: ts' => Since t last <= 5 * Minute /\ spaced t ts'
  end.

(** The sum of a list of integers. *)
Definition sumZ (l : list Z) : Z := foldr Z.add 0 l.

(** A Go call that returns or panics. *)
Inductive orPanic (A : Type) : Type :=
| Returned (a : A)
| Panicked (reason : string).
Arguments Returned {A} a.
Arguments Panicked {A} reason.

(** Every entry of a rate-limiter store has a count from 1 up to the
    ceiling. *)
Definition countsWithinCeiling (store : gmap string ipRateLimit) : Prop :=
  forall ip info, store !! ip = Some info -> 1 <= Count info <= MaxRequestsPerIP.

Section Startup.

Context {E : Collaborators}.

(** config: [validateConfig]; [Ok tt] is the nil error, and the error of an
    unparsable duration is given without the text [time.ParseDuration]
    appends. *)
Definition validateConfig (c : ServerConfig) : result unit :=
  if negb (String.eqb (Algorithm c) "SHA-256") && negb (String.eqb (Algorithm c) "SHA-512")
  then Err "invalid algorithm: must be SHA-256 or SHA-512"
  else match ParseDuration (ExpireTime c) with
       | None => Err "invalid expireTime"
       | Some _ =>
           if Complexity c <=? 0 then Err "complexity must be greater than 0"
           else Ok tt
       end.

(** challengeManager.go: [NewChallengeManager], without the goroutine it
    starts. *)
Definition NewChallengeManager (expireDuration : string) : orPanic ChallengeManager :=
  match ParseDuration expireDuration with
  | None => Panicked "time: invalid duration"
  | Some duration =>
      Returned {| solvedChallenges := ∅; expireDuration := duration |}
  end.

(** challengeManager.go: [cleanupLoop] over the ticks that fire at the clock
    readings [ticks]; [time.NewTicker] panics on a duration that is not
    positive. *)
Definition cleanupLoop (c : ChallengeManager) (ticks : list Z) : orPanic ChallengeManager :=
  if expireDuration c <=? 0 then Panicked "non-positive interval for NewTicker"
  else Returned (fold_left cleanupExpired ticks c).

End Startup.

(** The value of a lower-case hexadecimal digit, and the bytes a lower-case
    hexadecimal string stands for (the inverse of [EncodeToString]). *)
Definition unhexDigit (a : ascii) : option N :=
  let n := N_of_ascii a in
  if ((48 <=? n) && (n <=? 57))%N then Some (n - 48)%N
  else if ((97 <=? n) && (n <=? 102))%N then Some (n - 87)%N
  else None.

Fixpoint decodeLowerHex (s : string) : option (list Byte.byte) :=
  match s with
  | EmptyString => Some []
  | String a (String b s') =>
      match unhexDigit a, unhexDigit b, decodeLowerHex s' with
      | Some hi, Some lo, Some rest =>
          match Byte.of_N (16 * hi + lo) with
          | Some byte => Some (byte :: rest)
          | None => None
          end
      | _, _, _ => None
      end
  | String _ EmptyString => None
  end.

(** ** More concrete requests *)

Module Cases.

(** The server of [Scenario.world0] with the client address at the ceiling
    inside its window. *)
Definition fullWorld : World :=
  {| server := server Scenario.world0;
     rateLimiter :=
       {| ipLimits := {[ Scenario.ip := {| Count := 100;
                                           ResetAt := Scenario.t0 + RequestLimitWindow |} ]} |};
     cm := cm Scenario.world0; powLog := [] |}.

(** [{"challenge":"c0ffee","salt":"abc?x=1?expires=4102444800"}]: the expiry
    stands after a second question mark. *)
Definition twoMarksPayload : string :=
  "eyJjaGFsbGVuZ2UiOiJjMGZmZWUiLCJzYWx0IjoiYWJjP3g9MT9leHBpcmVzPTQxMDI0NDQ4MDAifQ==".

(** A configuration whose expiry is zero seconds. *)
Definition zeroPeriodCfg : ServerConfig :=
  {| HMACKey := "secret"; Algorithm := "SHA-256"; Complexity := 50000;
     ExpireTime := "0s"; APIKeys := ∅; Stats := ∅ |}.

(** Sixteen bytes from the random source. *)
Definition sixteenBytes : list Byte.byte :=
  [Byte.x00; Byte.x11; Byte.x22; Byte.x33; Byte.x44; Byte.x55; Byte.x66; Byte.x77;
   Byte.x88; Byte.x99; Byte.xaa; Byte.xbb; Byte.xcc; Byte.xdd; Byte.xee; Byte.xff].

(** A forwarded-for header naming another address first. *)
Definition forwarded : string := "198.51.100.9, 10.0.0.1".

End Cases.

(** ** Admission and expiry *)

(** rateLimit.go: the checks of [APIKeyMiddleware] taken together; [true]
    when the middleware hands the request to the handler. *)
Definition passesGate (wd : World) (r : Request) : bool :=
  let apiKey := Get (Query r) "apiKey" in
  negb (String.eqb apiKey EmptyString) &&
  HasPrefix apiKey "vrty_" &&
  match APIKeys (config (server wd)) !! apiKey with
  | None => false
  | Some allowedOrigins =>
      let origin := Get (Header r) "Origin" in
      negb (String.eqb origin EmptyString) &&
      existsb (fun allowedOrigin =>
                 String.eqb origin allowedOrigin || String.eqb allowedOrigin "*")
              allowedOrigins
  end.

(** The instant an [expires] value denotes.  The issuance handler hands the
    expiry to altcha as a [time.Time] ([Expires: &expires]); altcha writes it
    into the salt as [expires=<Unix seconds>] and [VerifySolution], called
    with [checkExpires], compares the parameter with [time.Now().Unix()]:
    the value counts seconds since the epoch. *)
Definition expiryInstant (expires : Z) : Z := expires * Second.

(** "An entry is never removed before its expiry": a sweep at clock reading
    [now] keeps every entry whose expiry instant is not before [now]. *)
Definition retainedUntilExpiry (c : ChallengeManager) (now : Z) : Prop :=
  forall id v,
    solvedChallenges c !! id = Some v -> now <= expiryInstant v ->
    solvedChallenges (cleanupExpired c now) !! id = Some v.

Section Router.

Context {E : Collaborators}.

(** The verdict of the rate limiter on a request, and the state in which
    [RateLimitMiddleware] goes on: the request has been counted. *)
Definition rateAdmits (wd : World) (r : Request) (now : Z) : bool :=
  (LimitByIP (GetRealIP r) MaxRequestsPerIP RequestLimitWindow
     (ipLimits (rateLimiter wd)) now).1.

Definition counted (wd : World) (r : Request) (now : Z) : World :=
  {| server := server wd;
     rateLimiter :=
       {| ipLimits := (LimitByIP (GetRealIP r) MaxRequestsPerIP RequestLimitWindow
                         (ipLimits (rateLimiter wd)) now).2 |};
     cm := cm wd; powLog := powLog wd |}.

End Router.

(** ** Properties *)

(** *** Integers *)

Lemma wrap64_small (z : Z) : MinInt64 <= z <= MaxInt64 -> wrap64 z = z.
Proof.
  unfold wrap64, MinInt64, MaxInt64. intros Hz.
  rewrite Z.mod_small by lia. lia.
Qed.

Lemma incr64_small (x : Z) : MinInt64 <= x < MaxInt64 -> incr64 x = x + 1.
Proof. intros Hx. unfold incr64. apply wrap64_small. lia. Qed.

(** [x++] never gives [x] back. *)
Lemma incr64_neq (x : Z) : incr64 x <> x.
Proof.
  unfold incr64, wrap64. intros H.
  change (2 ^ 63) with 9223372036854775808 in H.
  change (2 ^ 64) with 18446744073709551616 in H.
  pose proof (Z.div_mod (x + 1 + 9223372036854775808) 18446744073709551616 ltac:(lia)) as Hd.
  lia.
Qed.

(** *** Rate limiter *)

Section RateLimiterFacts.

Variable ip : string.

Local Abbreviation limitByIP := (LimitByIP ip MaxRequestsPerIP RequestLimitWindow).

(** First request ever seen from the address. *)
Lemma LimitByIP_fresh store now :
  store !! ip = None ->
  limitByIP store now
  = (true, <[ip := {| Count := 1; ResetAt := now + RequestLimitWindow |}]> store).
Proof.
  intros Hnone. unfold LimitByIP. rewrite Hnone. cbn [ResetAt Count].
  unfold After, Add. rewrite (proj2 (Z.ltb_ge _ _)) by (unfold RequestLimitWindow, Minute, Second, Millisecond; lia).
  cbn [Count ResetAt]. reflexivity.
Qed.

(** Within the window and below the ceiling: admitted and counted. *)
Lemma LimitByIP_accept store now c r :
  store !! ip = Some {| Count := c; ResetAt := r |} ->
  now <= r -> 0 <= c < MaxRequestsPerIP ->
  limitByIP store now = (true, <[ip := {| Count := c + 1; ResetAt := r |}]> store).
Proof.
  intros Hs Hnow Hc. unfold LimitByIP. rewrite Hs.
  unfold After. cbn [ResetAt Count].
  rewrite (proj2 (Z.ltb_ge _ _)) by lia. cbn [Count ResetAt].
  rewrite (proj2 (Z.leb_gt _ _)) by lia.
  rewrite incr64_small; [reflexivity|].
  unfold MaxRequestsPerIP, MinInt64, MaxInt64 in *. lia.
Qed.


(** Past the stored boundary: the window restarts at this request. *)
Lemma LimitByIP_reset store now c r :
  store !! ip = Some {| Count := c; ResetAt := r |} ->
  r < now ->
  limitByIP store now
  = (true, <[ip := {| Count := 1; ResetAt := now + RequestLimitWindow |}]> store).
Proof.
  intros Hs Hnow. unfold LimitByIP. rewrite Hs.
  unfold After, Add. cbn [ResetAt Count].
  rewrite (proj2 (Z.ltb_lt _ _)) by lia. cbn [Count ResetAt]. reflexivity.
Qed.

(** A call for another address leaves the entry of [ip] alone. *)
Lemma LimitByIP_frame other limit window store now :
  other <> ip ->
  (LimitByIP other limit window store now).2 !! ip = store !! ip.
Proof.
  intros Hne. unfold LimitByIP.
  repeat match goal with |- context [if ?b then _ else _] => destruct b end;
    cbn [snd]; by rewrite lookup_insert_ne.
Qed.

(** [n] requests inside the window while the count stays within the
    ceiling are all admitted. *)
Lemma LimitSeq_accepts ts : forall store c r,
  store !! ip = Some {| Count := c; ResetAt := r |} ->
  0 <= c -> c + Z.of_nat (length ts) <= MaxRequestsPerIP ->
  Forall (fun t => t <= r) ts ->
  LimitSeq ip store ts
  = (repeat true (length ts),
     <[ip := {| Count := c + Z.of_nat (length ts); ResetAt := r |}]> store).
Proof.
  induction ts as [|t ts IH]; intros store c r Hs Hc Hlen Hts.
  - cbn. rewrite Z.add_0_r. by rewrite insert_id.
  - apply Forall_cons in Hts as [Ht Hts]. cbn [LimitSeq length repeat].
    rewrite (LimitByIP_accept store t c r) by (try done; cbn [length] in Hlen; lia).
    rewrite (IH _ (c + 1) r); try done.
    + rewrite insert_insert_eq. do 3 f_equal. cbn [length]. lia.
    + by rewrite lookup_insert_eq.
    + lia.
    + cbn [length] in Hlen. lia.
Qed.

End RateLimiterFacts.

Section RateLimitClaim.

Context {E : Collaborators}.


End RateLimitClaim.

(** *** Replay guard *)

(** The clock of the sweep, for a clock reading after the epoch that fits an
    [int64]. *)
Lemma nowMillis_small (now : Z) :
  0 <= now <= MaxInt64 -> nowMillis now = now / Millisecond.
Proof.
  intros Hnow. unfold nowMillis, UnixNano, div64.
  assert (Hm : MaxInt64 = 9223372036854775807) by reflexivity.
  assert (Hn : MinInt64 = -9223372036854775808) by reflexivity.
  rewrite (wrap64_small now) by lia.
  rewrite Z.quot_div_nonneg by (unfold Millisecond; lia).
  apply wrap64_small.
  assert (0 <= now / Millisecond <= now); [|lia].
  split; [apply Z.div_pos; unfold Millisecond; lia|].
  apply Z.div_le_upper_bound; unfold Millisecond; lia.
Qed.

Section ReplayGuardFacts.

Context {E : Collaborators}.

(** The sweep keeps an entry exactly when its value is not below the clock. *)
Lemma cleanupExpired_lookup (c : ChallengeManager) (now : Z) (id : string) :
  solvedChallenges (cleanupExpired c now) !! id
  = match solvedChallenges c !! id with
    | Some v => if bool_decide (v < nowMillis now) then None else Some v
    | None => None
    end.
Proof.
  unfold cleanupExpired. cbn [solvedChallenges].
  destruct (solvedChallenges c !! id) as [v|] eqn:Hid.
  - case_bool_decide as Hv.
    + apply map_lookup_filter_None. right. intros v' Hv'. simplify_eq. cbn. tauto.
    + apply map_lookup_filter_Some. split; [done|]. cbn. done.
  - apply map_lookup_filter_None. by left.
Qed.

(** Serving a request never removes nor rewrites a recorded entry. *)
Lemma ServeHTTP_keeps_entry (wd : World) (r : Request) (now rnd : Z) (id : string) (v : Z) :
  solvedChallenges (cm wd) !! id = Some v ->
  solvedChallenges (cm (ServeHTTP wd r now rnd).1) !! id = Some v.
Proof.
  intros Hid.
  unfold ServeHTTP, RateLimitMiddleware, APIKeyMiddleware,
    handleVerifyChallenge, handleGetChallenge.
  repeat case_match; simplify_eq; cbn; try done.
  unfold Exists in *. cbn in *.
  rewrite lookup_insert_ne; [done|].
  intros ->. 
  match goal with H : bool_decide _ = false |- _ => apply bool_decide_eq_false in H; apply H end.
  eauto.
Qed.

(** A run whose sweeps all fire no later than the stored value keeps the
    entry as it is. *)
Lemma run_keeps_entry (es : list Event) : forall (wd : World) (id : string) (v : Z),
  solvedChallenges (cm wd) !! id = Some v ->
  (forall now, EvSweep now ∈ es -> nowMillis now <= v) ->
  solvedChallenges (cm (run wd es)) !! id = Some v.
Proof.
  induction es as [|e es IH]; intros wd id v Hid Hsw; [done|].
  cbn [run fold_left]. apply IH.
  - destruct e as [r now rnd|now]; cbn [step].
    + by apply ServeHTTP_keeps_entry.
    + cbn [cm]. rewrite cleanupExpired_lookup, Hid.
      rewrite bool_decide_eq_false_2; [done|].
      specialize (Hsw now ltac:(left)). lia.
  - intros now Hin. apply Hsw. by right.
Qed.

(** C3, on the code.  The verification handler stores the [expires]
    parameter of the salt as it stands, a number of seconds since the epoch,
    and the sweep compares the stored number with the clock in milliseconds.
    So for a well-formed payload that the collaborator verifies, posted while
    its identifier is not in the replay set: the entry is recorded with the
    [expires] of the salt; a sweep removes it exactly when the stored number
    is below the clock in milliseconds; hence a sweep at any clock reading of
    at least [expire + 1] milliseconds removes the entry although the expiry
    instant, [expire] seconds, has not come: the entry is not retained until
    its expiry.  The same body posted again after that sweep reaches the
    collaborator again and, verified again, is answered with the success
    document and counted as solved a second time. *)
Theorem sweep_removes_unexpired_entry (wd : World) (apiKey : string) (r : Request)
    (now sweep now' : Z) (body decodedBytes : string) (payload : gmap string JSONValue)
    (id salt base query : string) (rest : list string) (expire : Z) :
  Body r = Some body ->
  DecodeString (TrimSpace body) = Some decodedBytes ->
  Unmarshal decodedBytes = Some payload ->
  payload !! "challenge" = Some (JString id) ->
  payload !! "salt" = Some (JString salt) ->
  Split salt "?"%char = base :: query :: rest ->
  ParseInt (Get (ParseQuery query) "expires") = Some expire ->
  1 <= expire ->
  Exists (cm wd) id = false ->
  VerifySolution (TrimSpace body) (HMACKey (config (server wd))) now = Ok true ->
  VerifySolution (TrimSpace body) (HMACKey (config (server wd))) now' = Ok true ->
  (expire + 1) * Millisecond <= sweep <= MaxInt64 ->
  sweep < expiryInstant expire ->
  let first := handleVerifyChallenge wd (Some apiKey) r now newWriter in
  let swept := step first.1 (EvSweep sweep) in
  let second := handleVerifyChallenge swept (Some apiKey) r now' newWriter in
  first.2 = Done okWriter /\
  solvedChallenges (cm first.1) !! id = Some expire /\
  (forall t, solvedChallenges (cm (step first.1 (EvSweep t))) !! id = None
             <-> expire < nowMillis t) /\
  solvedChallenges (cm swept) !! id = None /\
  ~ retainedUntilExpiry (cm first.1) sweep /\
  second.2 = Done okWriter /\
  statsOf second.1 !! apiKey
  = Some (solvedOne (solvedOne (default zeroStats (statsOf wd !! apiKey)))).
Proof.
  intros Hbody Hdec Hjson Hch Hsalt Hsplit Hexp Hpos Hfresh Hv Hv' Hsweep Hbefore.
  assert (Hlt : (expire <? 1) = false) by (apply Z.ltb_ge; lia).
  assert (Hone : forall w t,
             Exists (cm w) id = false ->
             VerifySolution (TrimSpace body) (HMACKey (config (server w))) t = Ok true ->
             handleVerifyChallenge w (Some apiKey) r t newWriter
             = ({| server := setServerStats (server w)
                               (<[apiKey := solvedOne (default zeroStats (statsOf w !! apiKey))]>
                                  (statsOf w));
                   rateLimiter := rateLimiter w; cm := AddChallenge (cm w) id expire;
                   powLog := CallVerify (TrimSpace body) (HMACKey (config (server w))) (Ok true)
                               :: powLog w |},
                Done okWriter)).
  { intros w t Hf Hvt. unfold handleVerifyChallenge.
    rewrite Hbody, Hdec, Hjson, Hch, Hsalt, Hsplit, Hexp, Hlt. cbn [assertString].
    rewrite Hf, Hvt. reflexivity. }
  assert (Hclock : expire < nowMillis sweep).
  { rewrite nowMillis_small.
    - apply Z.lt_le_trans with ((expire + 1) * Millisecond / Millisecond).
      + rewrite Z.div_mul by (unfold Millisecond; lia). lia.
      + apply Z.div_le_mono; [unfold Millisecond; lia | lia].
    - unfold Millisecond in Hsweep. lia. }
  cbv zeta. rewrite (Hone wd now Hfresh Hv). cbn [fst snd step cm].
  assert (Hin : solvedChallenges (AddChallenge (cm wd) id expire) !! id = Some expire).
  { cbn. by rewrite lookup_insert_eq. }
  assert (Hgone : solvedChallenges (cleanupExpired (AddChallenge (cm wd) id expire) sweep) !! id
                  = None).
  { rewrite cleanupExpired_lookup, Hin. by rewrite bool_decide_eq_true_2. }
  split; [done|]. split; [done|]. split; [|split; [done|split]].
  - intros t. rewrite cleanupExpired_lookup, Hin.
    case_bool_decide; split; (done || lia || intros; simplify_eq; lia).
  - intros Hkeep. specialize (Hkeep id expire Hin ltac:(lia)). congruence.
  - rewrite Hone.
    + split; [done|]. cbn [fst snd]. unfold statsOf. cbn.
      by rewrite !lookup_insert_eq.
    + unfold Exists. cbn [cm]. rewrite Hgone. apply bool_decide_eq_false_2. by intros [? ?].
    + exact Hv'.
Qed.

End ReplayGuardFacts.

Section ReplayGuardInvariant.

Context {E : Collaborators}.

(** Serving one request either leaves the replay set as it is, or it is a
    verification request whose payload the collaborator has just verified
    as valid and whose identifier is the one inserted; the answer is then
    the success document. *)
Lemma ServeHTTP_cm_cases (wd : World) (r : Request) (now rnd : Z) :
  cm (ServeHTTP wd r now rnd).1 = cm wd \/
  exists body id expire,
    route r = RouteVerifyChallenge /\
    Body r = Some body /\
    challengeOf (TrimSpace body) = Some id /\
    VerifySolution (TrimSpace body) (HMACKey (config (server wd))) now = Ok true /\
    cm (ServeHTTP wd r now rnd).1 = AddChallenge (cm wd) id expire /\
    powLog (ServeHTTP wd r now rnd).1
    = CallVerify (TrimSpace body) (HMACKey (config (server wd))) (Ok true) :: powLog wd /\
    (ServeHTTP wd r now rnd).2 = Done okWriter.
Proof.
  unfold ServeHTTP, RateLimitMiddleware, APIKeyMiddleware,
    handleVerifyChallenge, handleGetChallenge, challengeOf.
  repeat case_match; simplify_eq; cbn; try (by left).
  right. do 3 eexists. repeat split; try done.
  repeat match goal with H : _ = _ |- _ => rewrite H end. done.
Qed.

(** The record of collaborator calls only grows. *)
Lemma ServeHTTP_log_grows (wd : World) (r : Request) (now rnd : Z) (c : PowCall) :
  c ∈ powLog wd -> c ∈ powLog (ServeHTTP wd r now rnd).1.
Proof.
  intros Hc.
  unfold ServeHTTP, RateLimitMiddleware, APIKeyMiddleware,
    handleVerifyChallenge, handleGetChallenge.
  repeat case_match; simplify_eq; cbn; try done; by right.
Qed.

Lemma verifiedValid_mono (wd : World) (e : Event) (id : string) :
  verifiedValid (powLog wd) id -> verifiedValid (powLog (step wd e)) id.
Proof.
  intros (payload & key & Hin & Hid). exists payload, key. split; [|done].
  destruct e; cbn [step powLog]; [by apply ServeHTTP_log_grows | done].
Qed.

(** One step keeps "every recorded identifier was verified as valid". *)
Lemma step_preserves_verified (wd : World) (e : Event) :
  (forall id, is_Some (solvedChallenges (cm wd) !! id) -> verifiedValid (powLog wd) id) ->
  forall id, is_Some (solvedChallenges (cm (step wd e)) !! id) ->
             verifiedValid (powLog (step wd e)) id.
Proof.
  intros Hinv id Hid. destruct e as [r now rnd|now].
  - cbn [step] in *.
    destruct (ServeHTTP_cm_cases wd r now rnd)
      as [Hsame|(body & id' & expire & _ & _ & Hch & _ & Hcm & Hlog & _)].
    + apply (verifiedValid_mono wd (EvRequest r now rnd)). apply Hinv.
      by rewrite <- Hsame.
    + rewrite Hcm in Hid. cbn [AddChallenge solvedChallenges] in Hid.
      destruct (decide (id' = id)) as [->|Hne].
      * exists (TrimSpace body), (HMACKey (config (server wd))).
        rewrite Hlog. split; [by left | done].
      * rewrite lookup_insert_ne in Hid by done.
        apply (verifiedValid_mono wd (EvRequest r now rnd)). by apply Hinv.
  - cbn [step cm powLog] in *. apply Hinv.
    rewrite cleanupExpired_lookup in Hid.
    destruct (solvedChallenges (cm wd) !! id); [eauto | by destruct Hid].
Qed.

Lemma run_preserves_verified (es : list Event) : forall wd : World,
  (forall id, is_Some (solvedChallenges (cm wd) !! id) -> verifiedValid (powLog wd) id) ->
  forall id, is_Some (solvedChallenges (cm (run wd es)) !! id) ->
             verifiedValid (powLog (run wd es)) id.
Proof.
  induction es as [|e es IH]; intros wd Hinv; [done|].
  cbn [run fold_left]. apply IH. by apply step_preserves_verified.
Qed.

(** C4.  In every state reached from start-up by requests and sweeps, every
    identifier in the replay set is the identifier of a payload that the
    collaborator verified as valid earlier in the run; and a request that
    changes the replay set at all is a verification request answered with
    the success document, whose payload was verified as valid in that very
    request: no other path inserts an identifier. *)
Theorem replay_set_only_verified (c : ServerConfig) (d : Z) (es : list Event) :
  (forall id,
      id ∈ dom (solvedChallenges (cm (run (initWorld c d) es))) ->
      verifiedValid (powLog (run (initWorld c d) es)) id) /\
  (forall wd r now rnd,
      cm (ServeHTTP wd r now rnd).1 <> cm wd ->
      (ServeHTTP wd r now rnd).2 = Done okWriter /\
      exists body id expire,
        route r = RouteVerifyChallenge /\ Body r = Some body /\
        challengeOf (TrimSpace body) = Some id /\
        VerifySolution (TrimSpace body) (HMACKey (config (server wd))) now = Ok true /\
        cm (ServeHTTP wd r now rnd).1 = AddChallenge (cm wd) id expire).
Proof.
  split.
  - intros id Hid. apply elem_of_dom in Hid.
    revert id Hid. apply run_preserves_verified.
    intros id Hid. cbn in Hid. rewrite lookup_empty in Hid. by destruct Hid.
  - intros wd r now rnd Hne.
    destruct (ServeHTTP_cm_cases wd r now rnd)
      as [Hsame|(body & id & expire & Hr & Hb & Hch & Hv & Hcm & _ & Hout)]; [done|].
    split; [done|]. eauto 10.
Qed.

End ReplayGuardInvariant.

Section ReplayRejection.

Context {E : Collaborators}.

(** C5.  A well-formed payload (it decodes, parses, carries a string
    [challenge], a string [salt] with a query part and an [expires] of at
    least 1) that the collaborator verifies as valid, submitted while its
    identifier is not in the replay set: the answer is status 200 with the
    document [{code:200, message:"OK"}], and the identifier is recorded with
    the [expires] of the salt.  Submitting the same body again in any state
    where that entry is still present (in particular after any run of
    requests and sweeps in which no sweep fires after the stored value) is
    answered with status 409, message "Challenge already solved", and leaves
    the whole state as it is: no stats change and no call to the
    collaborator is recorded. *)
Theorem valid_once_then_replay (wd : World) (apiKey : string) (r : Request) (now : Z)
    (body decodedBytes : string) (payload : gmap string JSONValue)
    (id salt base query : string) (rest : list string) (expire : Z) :
  Body r = Some body ->
  DecodeString (TrimSpace body) = Some decodedBytes ->
  Unmarshal decodedBytes = Some payload ->
  payload !! "challenge" = Some (JString id) ->
  payload !! "salt" = Some (JString salt) ->
  Split salt "?"%char = base :: query :: rest ->
  ParseInt (Get (ParseQuery query) "expires") = Some expire ->
  1 <= expire ->
  VerifySolution (TrimSpace body) (HMACKey (config (server wd))) now = Ok true ->
  Exists (cm wd) id = false ->
  let first := handleVerifyChallenge wd (Some apiKey) r now newWriter in
  first.2 = Done okWriter /\
  StatusCode okWriter = StatusOK /\
  responses okWriter = [ {| Code := 200; Message := "OK" |} ] /\
  solvedChallenges (cm first.1) !! id = Some expire /\
  (forall es,
      (forall t, EvSweep t ∈ es -> nowMillis t <= expire) ->
      solvedChallenges (cm (run first.1 es)) !! id = Some expire) /\
  (forall wd' apiKey' now',
      is_Some (solvedChallenges (cm wd') !! id) ->
      handleVerifyChallenge wd' (Some apiKey') r now' newWriter = (wd', Done replayWriter)) /\
  StatusCode replayWriter = StatusConflict /\
  Message <$> responses replayWriter = [ "Challenge already solved" ].
Proof.
  intros Hbody Hdec Hjson Hch Hsalt Hsplit Hexp Hpos Hver Hfresh.
  assert (Hlt : (expire <? 1) = false) by (apply Z.ltb_ge; lia).
  cbv zeta. repeat split.
  - unfold handleVerifyChallenge.
    rewrite Hbody, Hdec, Hjson, Hch, Hsalt, Hsplit, Hexp, Hlt; cbn [assertString]; rewrite Hfresh, Hver. reflexivity.
  - unfold handleVerifyChallenge.
    rewrite Hbody, Hdec, Hjson, Hch, Hsalt, Hsplit, Hexp, Hlt; cbn [assertString]; rewrite Hfresh, Hver.
    cbn. by rewrite lookup_insert_eq.
  - intros es Hes. apply run_keeps_entry; [|done].
    unfold handleVerifyChallenge.
    rewrite Hbody, Hdec, Hjson, Hch, Hsalt, Hsplit, Hexp, Hlt; cbn [assertString]; rewrite Hfresh, Hver.
    cbn. by rewrite lookup_insert_eq.
  - intros wd' apiKey' now' Hin. unfold handleVerifyChallenge.
    rewrite Hbody, Hdec, Hjson, Hch, Hsalt, Hsplit, Hexp, Hlt; cbn [assertString].
    unfold Exists. rewrite bool_decide_eq_true_2 by done. reflexivity.
Qed.

End ReplayRejection.

(** *** Admission gate *)

Section AdmissionGate.

Context {E : Collaborators}.

(** The origin check of the middleware, as a proposition. *)
Lemma origin_check_spec (origin : string) (allowedOrigins : list string) :
  existsb (fun allowedOrigin =>
             String.eqb origin allowedOrigin || String.eqb allowedOrigin "*")
          allowedOrigins = true
  <-> origin ∈ allowedOrigins \/ "*" ∈ allowedOrigins.
Proof.
  rewrite existsb_exists. split.
  - intros (a & Hin & Hor). apply list_elem_of_In in Hin.
    apply orb_true_iff in Hor as [Heq|Heq]; apply String.eqb_eq in Heq; subst; auto.
  - intros [Hin|Hin]; apply list_elem_of_In in Hin.
    + exists origin. split; [done|]. by rewrite String.eqb_refl.
    + exists "*". split; [done|]. rewrite (String.eqb_refl "*"). apply orb_true_r.
Qed.

(** The middleware on a registered, well-formed credential: the handler runs
    exactly when the Origin header is non-empty and listed (or the list holds
    the wildcard); otherwise the answer is status 403. *)
Lemma APIKeyMiddleware_registered (wd : World) (r : Request) (w : ResponseWriter)
    (next : option string -> World * Outcome) (allowedOrigins : list string) :
  Get (Query r) "apiKey" <> EmptyString ->
  HasPrefix (Get (Query r) "apiKey") "vrty_" = true ->
  APIKeys (config (server wd)) !! Get (Query r) "apiKey" = Some allowedOrigins ->
  APIKeyMiddleware wd r w next
  = if bool_decide (Get (Header r) "Origin" <> EmptyString /\
                    (Get (Header r) "Origin" ∈ allowedOrigins \/ "*" ∈ allowedOrigins))
    then next (Some (Get (Query r) "apiKey"))
    else (wd, Done (writeErrorResponse w "Invalid origin" StatusForbidden)).
Proof.
  intros Hkey Hpre Hreg. unfold APIKeyMiddleware.
  rewrite (proj2 (String.eqb_neq _ _) Hkey), Hpre, Hreg. cbn [negb].
  destruct (String.eqb (Get (Header r) "Origin") EmptyString) eqn:Ho.
  - apply String.eqb_eq in Ho. cbn [negb andb].
    rewrite bool_decide_eq_false_2; [done|]. intros [Hne _]. done.
  - apply String.eqb_neq in Ho. cbn [negb andb].
    destruct (existsb _ allowedOrigins) eqn:Hex.
    + rewrite bool_decide_eq_true_2; [done|]. split; [done|].
      by apply origin_check_spec.
    + rewrite bool_decide_eq_false_2; [done|]. intros [_ Hin].
      apply origin_check_spec in Hin. congruence.
Qed.

(** C6.  For a request bearing a registered credential (non-empty, with the
    [vrty_] prefix, in the registry) whose origin list holds no wildcard: the
    request is passed to the handler, whatever the handler is, if and only if
    its Origin header is non-empty and equal to one of the registered
    origins; with an absent (empty) Origin header it is answered with status
    403; and when the list does hold the wildcard, every non-empty origin is
    passed on. *)
Theorem origin_admission (wd : World) (r : Request) (allowedOrigins : list string) :
  Get (Query r) "apiKey" <> EmptyString ->
  HasPrefix (Get (Query r) "apiKey") "vrty_" = true ->
  APIKeys (config (server wd)) !! Get (Query r) "apiKey" = Some allowedOrigins ->
  let origin := Get (Header r) "Origin" in
  let admitted :=
    forall w next, APIKeyMiddleware wd r w next = next (Some (Get (Query r) "apiKey")) in
  let rejected :=
    forall w next, APIKeyMiddleware wd r w next
                   = (wd, Done (writeErrorResponse w "Invalid origin" StatusForbidden)) in
  ("*" ∉ allowedOrigins ->
     (admitted <-> origin <> EmptyString /\ origin ∈ allowedOrigins) /\
     (rejected <-> ~ (origin <> EmptyString /\ origin ∈ allowedOrigins))) /\
  (origin = EmptyString -> rejected) /\
  (forall w, StatusCode (writeErrorResponse newWriter w StatusForbidden) = 403) /\
  ("*" ∈ allowedOrigins -> origin <> EmptyString -> admitted).
Proof.
  intros Hkey Hpre Hreg. cbv zeta.
  pose proof (fun w next => APIKeyMiddleware_registered wd r w next allowedOrigins
                              Hkey Hpre Hreg) as Hmw.
  set (probe := fun _ : option string => (wd, Panic EmptyString)).
  split; [|split; [|split]].
  - intros Hno. split; split.
    + intros Hadm. specialize (Hadm newWriter probe).
      rewrite Hmw in Hadm. case_bool_decide as Hc; [|done].
      destruct Hc as [? [?|?]]; done.
    + intros [Hne Hin] w next. rewrite Hmw. by rewrite bool_decide_eq_true_2 by auto.
    + intros Hrej [Hne Hin]. specialize (Hrej newWriter probe).
      rewrite Hmw in Hrej. rewrite bool_decide_eq_true_2 in Hrej by auto. done.
    + intros Hnot w next. rewrite Hmw. rewrite bool_decide_eq_false_2; [done|].
      intros [Hne [Hin|Hin]]; auto.
  - intros Ho w next. rewrite Hmw. rewrite bool_decide_eq_false_2; [done|].
    intros [Hne _]. done.
  - intros w. reflexivity.
  - intros Hstar Hne w next. rewrite Hmw. by rewrite bool_decide_eq_true_2 by auto.
Qed.

End AdmissionGate.

(** The gate, spelled out: a non-empty credential with the prefix that is
    registered, and a non-empty Origin header that is one of the registered
    origins or faces the wildcard. *)
Lemma passesGate_spec (wd : World) (r : Request) :
  passesGate wd r = true <->
  Get (Query r) "apiKey" <> EmptyString /\
  HasPrefix (Get (Query r) "apiKey") "vrty_" = true /\
  exists allowedOrigins,
    APIKeys (config (server wd)) !! Get (Query r) "apiKey" = Some allowedOrigins /\
    Get (Header r) "Origin" <> EmptyString /\
    (Get (Header r) "Origin" ∈ allowedOrigins \/ "*" ∈ allowedOrigins).
Proof.
  unfold passesGate. cbv zeta.
  rewrite !andb_true_iff, negb_true_iff, String.eqb_neq.
  destruct (APIKeys (config (server wd)) !! Get (Query r) "apiKey") as [allowed|].
  - rewrite andb_true_iff, negb_true_iff, String.eqb_neq, origin_check_spec.
    split.
    + intros [[? ?] [? ?]]. eauto 10.
    + intros (? & ? & a & [= <-] & ? & ?). done.
  - split; [intros [_ [=]] | intros (_ & _ & a & [=] & _)].
Qed.

(** *** Stats *)

Section StatsAccounting.

Context {E : Collaborators}.

(** The admission gate either hands the request to the handler or answers
    it with status 401 or 403 and leaves the state as it is. *)
Lemma APIKeyMiddleware_gate (wd wd' : World) (r : Request) (w : ResponseWriter)
    (next : option string -> World * Outcome) :
  APIKeys (config (server wd')) = APIKeys (config (server wd)) ->
  (passesGate wd r = true /\
   APIKeyMiddleware wd' r w next = next (Some (Get (Query r) "apiKey"))) \/
  (passesGate wd r = false /\
   exists msg st, (st = StatusUnauthorized \/ st = StatusForbidden) /\
     APIKeyMiddleware wd' r w next = (wd', Done (writeErrorResponse w msg st))).
Proof.
  intros Hk. unfold passesGate, APIKeyMiddleware. rewrite Hk.
  destruct (String.eqb (Get (Query r) "apiKey") EmptyString); cbn [negb andb];
    [right; split; [done|]; eauto 6|].
  destruct (HasPrefix (Get (Query r) "apiKey") "vrty_"); cbn [negb andb];
    [|right; split; [done|]; eauto 6].
  destruct (APIKeys (config (server wd)) !! Get (Query r) "apiKey") as [allowed|];
    [|right; split; [done|]; eauto 6].
  cbv zeta.
  destruct (negb (String.eqb (Get (Header r) "Origin") EmptyString) && existsb _ allowed);
    cbn [negb]; [by left | right; split; [done|]; eauto 6].
Qed.

(** A request that the rate limiter and, on the API routes, the gate let
    through reaches the handler of its route, with the request counted by the
    rate limiter and the credential of the query as its API key. *)
Lemma ServeHTTP_through (wd : World) (r : Request) (now rnd : Z) :
  rateAdmits wd r now = true ->
  (route r <> RouteRoot -> passesGate wd r = true) ->
  ServeHTTP wd r now rnd
  = match route r with
    | RouteRoot => (counted wd r now, Done (handleRoot (server wd) newWriter))
    | RouteGetChallenge =>
        handleGetChallenge (counted wd r now) (Some (Get (Query r) "apiKey")) r now rnd newWriter
    | RouteVerifyChallenge =>
        handleVerifyChallenge (counted wd r now) (Some (Get (Query r) "apiKey")) r now newWriter
    end.
Proof.
  unfold rateAdmits, counted, ServeHTTP, RateLimitMiddleware. intros Hlim Hgate.
  destruct (LimitByIP (GetRealIP r) MaxRequestsPerIP RequestLimitWindow
              (ipLimits (rateLimiter wd)) now) as [allowed store].
  cbn [fst snd] in *. subst allowed. cbn [negb].
  destruct (route r); [done| |].
  - match goal with
    | |- APIKeyMiddleware ?wd' _ ?w ?next = _ =>
        destruct (APIKeyMiddleware_gate wd wd' r w next eq_refl) as [[_ ->]|[Hno _]]; [done|]
    end.
    rewrite Hgate in Hno; done.
  - match goal with
    | |- APIKeyMiddleware ?wd' _ ?w ?next = _ =>
        destruct (APIKeyMiddleware_gate wd wd' r w next eq_refl) as [[_ ->]|[Hno _]]; [done|]
    end.
    rewrite Hgate in Hno; done.
Qed.

(** A request that the rate limiter or the gate stops is answered with
    status 429, 401 or 403, and nothing but the rate limiter has changed. *)
Lemma ServeHTTP_stopped (wd : World) (r : Request) (now rnd : Z) :
  rateAdmits wd r now = false \/ (route r <> RouteRoot /\ passesGate wd r = false) ->
  exists w,
    ServeHTTP wd r now rnd = (counted wd r now, Done w) /\
    (StatusCode w = StatusTooManyRequests \/ StatusCode w = StatusUnauthorized \/
     StatusCode w = StatusForbidden).
Proof.
  unfold rateAdmits, counted, ServeHTTP, RateLimitMiddleware. intros Hstop.
  destruct (LimitByIP (GetRealIP r) MaxRequestsPerIP RequestLimitWindow
              (ipLimits (rateLimiter wd)) now) as [allowed store].
  cbn [fst snd] in *. destruct allowed; cbn [negb]; [|eauto].
  destruct Hstop as [?|[Hroute Hgate]]; [done|].
  destruct (route r); [done| |].
  - match goal with
    | |- context [APIKeyMiddleware ?wd' _ ?w ?next] =>
        destruct (APIKeyMiddleware_gate wd wd' r w next eq_refl)
          as [[Hyes _]|(_ & msg & st & Hst & ->)]; [congruence|]
    end.
    eexists; split; [done|]; destruct Hst as [->| ->]; cbn; auto.
  - match goal with
    | |- context [APIKeyMiddleware ?wd' _ ?w ?next] =>
        destruct (APIKeyMiddleware_gate wd wd' r w next eq_refl)
          as [[Hyes _]|(_ & msg & st & Hst & ->)]; [congruence|]
    end.
    eexists; split; [done|]; destruct Hst as [->| ->]; cbn; auto.
Qed.

(** What the verification handler does, by the way it ends. *)
Lemma handleVerifyChallenge_cases (wd : World) (key : string) (r : Request) (now : Z) :
  let res := handleVerifyChallenge wd (Some key) r now newWriter in
  let st := default zeroStats (statsOf wd !! key) in
  let hmac := HMACKey (config (server wd)) in
  (res.1 = wd /\
   ((exists w, res.2 = Done w /\
               (StatusCode w = StatusBadRequest \/ StatusCode w = StatusConflict)) \/
    exists reason, res.2 = Panic reason)) \/
  (exists payload e,
     VerifySolution payload hmac now = Err e /\
     server res.1 = server wd /\ cm res.1 = cm wd /\ rateLimiter res.1 = rateLimiter wd /\
     powLog res.1 = CallVerify payload hmac (Err e) :: powLog wd /\
     exists w, res.2 = Done w /\ StatusCode w = StatusInternalServerError) \/
  (exists payload verified,
     VerifySolution payload hmac now = Ok verified /\
     powLog res.1 = CallVerify payload hmac (Ok verified) :: powLog wd /\
     rateLimiter res.1 = rateLimiter wd /\
     ipRequestCount (server res.1) = ipRequestCount (server wd) /\
     ipLastRequest (server res.1) = ipLastRequest (server wd) /\
     res.2 = Done (if verified then okWriter else failedWriter) /\
     statsOf res.1
     = <[key := if verified then solvedOne st else failedOne st]> (statsOf wd)).
Proof.
  cbv zeta. unfold handleVerifyChallenge, statsOf.
  repeat case_match; simplify_eq; cbn [fst snd];
    try (left; split; [done|]; first [left; eexists; split; [done|]; cbn; auto | right; eauto]).
  all: first
    [ right; right; do 2 eexists; split; [eassumption|]; cbn; done
    | right; left; do 2 eexists; split; [eassumption|]; cbn; repeat split; try done;
      eexists; split; [done|reflexivity] ].
Qed.

(** What the issuance handler does. *)
Lemma handleGetChallenge_cases (wd : World) (key : string) (r : Request) (now rnd : Z) :
  let res := handleGetChallenge wd (Some key) r now rnd newWriter in
  let s := server wd in
  let ip := GetRealIP r in
  let st := default zeroStats (statsOf wd !! key) in
  let options :=
    {| opt_Algorithm := Algorithm (config s);
       opt_MaxNumber := (getAdjustedComplexity s ip now).1;
       opt_HMACKey := HMACKey (config s);
       opt_Expires := now + default (5 * Minute) (ParseDuration (ExpireTime (config s))) |} in
  powLog res.1 = CallCreate options :: powLog wd /\
  cm res.1 = cm wd /\ rateLimiter res.1 = rateLimiter wd /\
  ipRequestCount (server res.1) = ipRequestCount (getAdjustedComplexity s ip now).2 /\
  ipLastRequest (server res.1) = <[ip := now]> (ipLastRequest s) /\
  match CreateChallenge options rnd with
  | Ok challenge =>
      res.2 = Done (challengeWriter challenge) /\
      statsOf res.1 = <[key := issuedOne ip st]> (statsOf wd)
  | Err e =>
      statsOf res.1 = statsOf wd /\
      exists w, res.2 = Done w /\ StatusCode w = StatusInternalServerError
  end.
Proof.
  cbv zeta. unfold handleGetChallenge.
  assert (Hcfg : config (getAdjustedComplexity (server wd) (GetRealIP r) now).2
                 = config (server wd)).
  { unfold getAdjustedComplexity. by destruct (_ && _). }
  assert (Hlast : ipLastRequest (getAdjustedComplexity (server wd) (GetRealIP r) now).2
                  = <[GetRealIP r := now]> (ipLastRequest (server wd))).
  { unfold getAdjustedComplexity. by destruct (_ && _). }
  destruct (getAdjustedComplexity (server wd) (GetRealIP r) now) as [complexity s'] eqn:Hg.
  cbn [fst snd] in *. cbv beta iota zeta. rewrite ?Hcfg. unfold Add.
  destruct (CreateChallenge _ rnd) as [challenge|e] eqn:Hcreate;
    cbn [fst snd powLog cm server rateLimiter].
  - repeat split; try done; unfold statsOf; cbn; by rewrite ?Hcfg.
  - repeat split; try done; try (unfold statsOf; cbn [server]; by rewrite Hcfg).
    all: try (eexists; split; [done|]; reflexivity).
Qed.

(** Each of the three updates changes the entry it is applied to. *)
Lemma stats_updates_differ (ip : string) (st : StatsEntry) :
  TotalChallenges (issuedOne ip st) <> TotalChallenges st /\
  SolvedChallenges (solvedOne st) <> SolvedChallenges st /\
  FailedChallenges (failedOne st) <> FailedChallenges st.
Proof. repeat split; apply incr64_neq. Qed.

(** The four ways a request goes through the router. *)
Lemma ServeHTTP_routes (wd : World) (r : Request) (now rnd : Z) :
  let res := ServeHTTP wd r now rnd in
  let key := Get (Query r) "apiKey" in
  ((rateAdmits wd r now = false \/ (route r <> RouteRoot /\ passesGate wd r = false)) /\
   exists w, res = (counted wd r now, Done w) /\
     (StatusCode w = StatusTooManyRequests \/ StatusCode w = StatusUnauthorized \/
      StatusCode w = StatusForbidden)) \/
  (rateAdmits wd r now = true /\ route r = RouteRoot /\
   res = (counted wd r now, Done (handleRoot (server wd) newWriter))) \/
  (rateAdmits wd r now = true /\ passesGate wd r = true /\ route r = RouteGetChallenge /\
   res = handleGetChallenge (counted wd r now) (Some key) r now rnd newWriter) \/
  (rateAdmits wd r now = true /\ passesGate wd r = true /\ route r = RouteVerifyChallenge /\
   res = handleVerifyChallenge (counted wd r now) (Some key) r now newWriter).
Proof.
  cbv zeta.
  destruct (rateAdmits wd r now) eqn:Hlim;
    [|left; split; [by left|]; apply ServeHTTP_stopped; by left].
  destruct (route r) eqn:Hroute.
  - right; left. rewrite ServeHTTP_through by done. by rewrite Hroute.
  - destruct (passesGate wd r) eqn:Hgate.
    + right; right; left. rewrite ServeHTTP_through by done. by rewrite Hroute.
    + left. split; [by right|]. apply ServeHTTP_stopped. right. by rewrite Hroute, Hgate.
  - destruct (passesGate wd r) eqn:Hgate.
    + right; right; right. rewrite ServeHTTP_through by done. by rewrite Hroute.
    + left. split; [by right|]. apply ServeHTTP_stopped. right. by rewrite Hroute, Hgate.
Qed.

(** C1, as the code has it.  A request whose answer has a status other than
    200 (the rate-limit, admission, payload, replay and internal errors), or
    whose handler panics, leaves the stats of every credential unchanged.
    An issuance request that the rate limiter and the gate let through and
    for which the collaborator returns a challenge adds one to issued, and
    to the per-address count of the client, in the entry of the request's
    credential.  A verification request that they let through with a
    well-formed payload not in the replay set adds one to solved in the
    entry of the request's credential when the collaborator accepts the
    solution, and one to failed when it refuses it, whatever issued is.
    Nothing else changes the stats: when they change, the request reached
    one of the two handlers and the collaborator gave its verdict in that
    request.  Each of the three updates does change its counter. *)
Theorem stats_change_only_on_verdict (wd : World) (r : Request) (now rnd : Z) :
  let res := ServeHTTP wd r now rnd in
  let key := Get (Query r) "apiKey" in
  let ip := GetRealIP r in
  let s := server wd in
  let st := default zeroStats (statsOf wd !! key) in
  let reaches (rt : Route) :=
    route r = rt /\
    (LimitByIP ip MaxRequestsPerIP RequestLimitWindow (ipLimits (rateLimiter wd)) now).1
    = true /\
    passesGate wd r = true in
  let options :=
    {| opt_Algorithm := Algorithm (config s);
       opt_MaxNumber := (getAdjustedComplexity s ip now).1;
       opt_HMACKey := HMACKey (config s);
       opt_Expires := now + default (5 * Minute) (ParseDuration (ExpireTime (config s))) |} in
  (forall w, res.2 = Done w -> StatusCode w <> StatusOK -> statsOf res.1 = statsOf wd) /\
  (forall reason, res.2 = Panic reason -> statsOf res.1 = statsOf wd) /\
  (forall challenge,
      reaches RouteGetChallenge ->
      CreateChallenge options rnd = Ok challenge ->
      res.2 = Done (challengeWriter challenge) /\
      statsOf res.1 = <[key := issuedOne ip st]> (statsOf wd)) /\
  (forall body decodedBytes payload id salt base query rest expire verified,
      reaches RouteVerifyChallenge ->
      Body r = Some body ->
      DecodeString (TrimSpace body) = Some decodedBytes ->
      Unmarshal decodedBytes = Some payload ->
      payload !! "challenge" = Some (JString id) ->
      payload !! "salt" = Some (JString salt) ->
      Split salt "?"%char = base :: query :: rest ->
      ParseInt (Get (ParseQuery query) "expires") = Some expire ->
      1 <= expire ->
      Exists (cm wd) id = false ->
      VerifySolution (TrimSpace body) (HMACKey (config s)) now = Ok verified ->
      res.2 = Done (if verified then okWriter else failedWriter) /\
      statsOf res.1
      = <[key := if verified then solvedOne st else failedOne st]> (statsOf wd)) /\
  (statsOf res.1 = statsOf wd \/
   (reaches RouteGetChallenge /\
    (exists challenge,
        CreateChallenge options rnd = Ok challenge /\
        res.2 = Done (challengeWriter challenge)) /\
    statsOf res.1 = <[key := issuedOne ip st]> (statsOf wd)) \/
   (reaches RouteVerifyChallenge /\
    exists payload verified,
      VerifySolution payload (HMACKey (config s)) now = Ok verified /\
      powLog res.1 = CallVerify payload (HMACKey (config s)) (Ok verified) :: powLog wd /\
      res.2 = Done (if verified then okWriter else failedWriter) /\
      statsOf res.1
      = <[key := if verified then solvedOne st else failedOne st]> (statsOf wd))) /\
  (TotalChallenges (issuedOne ip st) <> TotalChallenges st /\
   SolvedChallenges (solvedOne st) <> SolvedChallenges st /\
   FailedChallenges (failedOne st) <> FailedChallenges st).
Proof.
  cbv zeta.
  set (key := Get (Query r) "apiKey"). set (ip := GetRealIP r).
  set (st := default zeroStats (statsOf wd !! key)).
  change (LimitByIP ip MaxRequestsPerIP RequestLimitWindow (ipLimits (rateLimiter wd)) now).1
    with (rateAdmits wd r now).
  destruct (ServeHTTP_routes wd r now rnd)
    as [(Hwhy & w & Hres & Hst)|[(Hlim & Hroute & Hres)|
        [(Hlim & Hgate & Hroute & Hres)|(Hlim & Hgate & Hroute & Hres)]]];
    fold key in Hres; rewrite Hres; clear Hres.
  - cbn [fst snd]. change (statsOf (counted wd r now)) with (statsOf wd).
    split_and!; try apply (stats_updates_differ ip st); try done; try (by left).
    + intros c (? & ? & ?). destruct Hwhy as [?|[? ?]]; congruence.
    + intros ? ? ? ? ? ? ? ? ? ? (? & ? & ?). destruct Hwhy as [?|[? ?]]; congruence.
  - cbn [fst snd]. change (statsOf (counted wd r now)) with (statsOf wd).
    split_and!; try apply (stats_updates_differ ip st); try done; try (by left).
    + intros c (? & ? & ?). congruence.
    + intros ? ? ? ? ? ? ? ? ? ? (? & ? & ?). congruence.
  - pose proof (handleGetChallenge_cases (counted wd r now) key r now rnd) as H.
    cbv zeta in H.
    change (server (counted wd r now)) with (server wd) in H.
    change (statsOf (counted wd r now)) with (statsOf wd) in H.
    fold ip st in H.
    destruct H as (_ & _ & _ & _ & _ & H).
    split_and!; try apply (stats_updates_differ ip st).
    + intros w Hw Hne. destruct (CreateChallenge _ rnd) as [c|e].
      * destruct H as [Hc _]. rewrite Hc in Hw. by simplify_eq.
      * by destruct H.
    + intros reason Hp. destruct (CreateChallenge _ rnd) as [c|e].
      * destruct H as [Hc _]. rewrite Hc in Hp. done.
      * by destruct H.
    + intros c _ Hc. by rewrite Hc in H.
    + intros ? ? ? ? ? ? ? ? ? ? (? & ? & ?). congruence.
    + destruct (CreateChallenge _ rnd) as [c|e] eqn:Hc.
      * right; left. destruct H as [H1 H2]. split; [done|]. split; [|done]. by exists c.
      * left. by destruct H.
  - pose proof (handleVerifyChallenge_cases (counted wd r now) key r now) as H.
    cbv zeta in H.
    change (server (counted wd r now)) with (server wd) in H.
    change (statsOf (counted wd r now)) with (statsOf wd) in H.
    change (powLog (counted wd r now)) with (powLog wd) in H.
    fold st in H.
    split_and!; try apply (stats_updates_differ ip st).
    + intros w Hw Hne.
      destruct H as [[-> _]|[(p & e & _ & Hs & _)|(p & v & _ & _ & _ & _ & _ & Ho & _)]].
      * done.
      * unfold statsOf. by rewrite Hs.
      * rewrite Ho in Hw. simplify_eq. by destruct v.
    + intros reason Hp.
      destruct H as [[-> _]|[(p & e & _ & Hs & _)|(p & v & _ & _ & _ & _ & _ & Ho & _)]].
      * done.
      * unfold statsOf. by rewrite Hs.
      * rewrite Ho in Hp. done.
    + intros c (? & ? & ?). congruence.
    + intros body decodedBytes payload id salt base query rest expire verified _
        Hbody Hdec Hjson Hch Hsalt Hsplit Hexp Hpos Hfresh Hver.
      clear H. unfold handleVerifyChallenge.
      rewrite Hbody, Hdec, Hjson, Hch, Hsalt, Hsplit, Hexp. cbn [assertString].
      rewrite (proj2 (Z.ltb_ge _ _)) by lia.
      change (cm (counted wd r now)) with (cm wd). rewrite Hfresh.
      change (server (counted wd r now)) with (server wd). cbv zeta. rewrite Hver.
      destruct verified; cbn [fst snd]; split; done.
    + destruct H as [[-> _]|[(p & e & _ & Hs & _)|(p & v & Hv & Hlog & _ & _ & _ & Ho & Hs)]].
      * by left.
      * left. unfold statsOf. by rewrite Hs.
      * right; right. split; [done|]. exists p, v. done.
Qed.

End StatsAccounting.

(** C1, as stated, fails: at start-up issued covers solved plus failed, and
    one verification request with a forged solution, for which nothing was
    ever issued, leaves failed = 1 above issued = 0. *)
Lemma issued_does_not_cover_failed :
  issuedCoversResolved Scenario.world0 /\
  ~ issuedCoversResolved
      (run (E := Sample.env) Scenario.world0
         [EvRequest (Scenario.verifyRequest Scenario.forgedPayload) Scenario.t0 0]).
Proof.
  split.
  - intros key st Hst. unfold statsOf in Hst. cbn in Hst.
    apply lookup_singleton_Some in Hst as [_ <-]. cbn. lia.
  - intros Hinv.
    specialize (Hinv Scenario.apiKey
                  {| TotalChallenges := 0; SolvedChallenges := 0;
                     FailedChallenges := 1; IPThrottleCount := ∅ |}).
    cbn [TotalChallenges SolvedChallenges FailedChallenges] in Hinv.
    assert (0 + 1 <= 0); [|lia]. apply Hinv. vm_compute. reflexivity.
Qed.

(** *** Rejected credentials *)

(** An admitted call always changes the entry of the address. *)
Lemma LimitByIP_admitted_counts (ip : string) (store : gmap string ipRateLimit) (now : Z) :
  (LimitByIP ip MaxRequestsPerIP RequestLimitWindow store now).1 = true ->
  (LimitByIP ip MaxRequestsPerIP RequestLimitWindow store now).2 !! ip <> store !! ip.
Proof.
  unfold LimitByIP, After, Add.
  destruct (store !! ip) as [[c r0]|] eqn:Hs; cbn [Count ResetAt].
  - destruct (r0 <? now) eqn:Hr; cbn [Count ResetAt].
    + destruct (MaxRequestsPerIP <=? 0) eqn:Hl; [done|]. cbn [fst snd]. intros _.
      rewrite lookup_insert_eq. intros Heq. simplify_eq.
      apply Z.ltb_lt in Hr. unfold RequestLimitWindow, Minute, Second, Millisecond in *. lia.
    + destruct (MaxRequestsPerIP <=? c) eqn:Hl; [done|]. cbn [fst snd]. intros _.
      rewrite lookup_insert_eq. intros Heq. simplify_eq.
      by eapply incr64_neq.
  - destruct (now + RequestLimitWindow <? now); cbn [Count ResetAt];
      (destruct (MaxRequestsPerIP <=? 0); [done|]); cbn [fst snd]; intros _;
      by rewrite lookup_insert_eq.
Qed.

Section RejectedCredential.

Context {E : Collaborators}.

(** C10, as the code has it.  A request to one of the two API routes that
    the rate limiter admits and whose credential is missing, lacks the
    [vrty_] prefix, or is not registered, is answered with status 401; the
    server (configuration, stats, per-address complexity counts), the replay
    set and the record of collaborator calls are unchanged.  The rate
    limiter, which runs before the credential check, has counted the
    request: the entry of the client address is not what it was. *)
Theorem rejected_credential_effects (wd : World) (r : Request) (now rnd : Z) :
  route r <> RouteRoot ->
  (Get (Query r) "apiKey" = EmptyString \/
   HasPrefix (Get (Query r) "apiKey") "vrty_" = false \/
   APIKeys (config (server wd)) !! Get (Query r) "apiKey" = None) ->
  let lim := LimitByIP (GetRealIP r) MaxRequestsPerIP RequestLimitWindow
               (ipLimits (rateLimiter wd)) now in
  lim.1 = true ->
  let res := ServeHTTP wd r now rnd in
  (exists w, res.2 = Done w /\ StatusCode w = StatusUnauthorized) /\
  server res.1 = server wd /\
  cm res.1 = cm wd /\
  powLog res.1 = powLog wd /\
  ipLimits (rateLimiter res.1) = lim.2 /\
  ipLimits (rateLimiter res.1) !! GetRealIP r <> ipLimits (rateLimiter wd) !! GetRealIP r.
Proof.
  cbv zeta. intros Hroute Hcred Hadm.
  pose proof (LimitByIP_admitted_counts _ _ _ Hadm) as Hcount.
  unfold ServeHTTP, RateLimitMiddleware.
  destruct (LimitByIP (GetRealIP r) MaxRequestsPerIP RequestLimitWindow
              (ipLimits (rateLimiter wd)) now) as [allowed store] eqn:Hlim.
  cbn [fst snd] in *. subst allowed. cbn [negb].
  assert (Hgate : forall next,
             exists w, APIKeyMiddleware
                         {| server := server wd; rateLimiter := {| ipLimits := store |};
                            cm := cm wd; powLog := powLog wd |} r newWriter next
                       = ({| server := server wd; rateLimiter := {| ipLimits := store |};
                             cm := cm wd; powLog := powLog wd |}, Done w)
                       /\ StatusCode w = StatusUnauthorized).
  { intros next. unfold APIKeyMiddleware. cbn [server config].
    destruct (String.eqb (Get (Query r) "apiKey") EmptyString) eqn:Hk; [eauto|].
    destruct (HasPrefix (Get (Query r) "apiKey") "vrty_") eqn:Hp; cbn [negb]; [|eauto].
    destruct (APIKeys (config (server wd)) !! Get (Query r) "apiKey") eqn:Hreg; [|eauto].
    apply String.eqb_neq in Hk. destruct Hcred as [?|[?|?]]; done. }
  destruct (route r); [done| |];
    match goal with |- context [APIKeyMiddleware _ _ _ ?n] => destruct (Hgate n) as (w & -> & Hw) end;
    cbn [fst snd server cm powLog rateLimiter ipLimits];
    (split; [by exists w|done]).
Qed.

End RejectedCredential.

(** C10, as stated, fails: a request without credential is answered with
    status 401, and the rate limiter has counted it. *)
Lemma rejected_credential_is_counted :
  (exists w, (Scenario.serve Scenario.world0 Scenario.anonymousRequest Scenario.t0 0).2 = Done w
             /\ StatusCode w = StatusUnauthorized) /\
  ~ sameCounters Scenario.world0
      (Scenario.serve Scenario.world0 Scenario.anonymousRequest Scenario.t0 0).1.
Proof.
  split.
  - eexists. split; [vm_compute; reflexivity | reflexivity].
  - intros (_ & _ & Hlim).
    apply (f_equal (fun m => m !! Scenario.ip)) in Hlim.
    vm_compute in Hlim. discriminate.
Qed.

(** *** Error responses *)

(** C2, on the code.  [writeErrorResponse] sends the status it is given and
    a document whose code field is 400 whatever that status is: a request
    without credential gets status 401 with code 400, a replayed solution
    status 409 with code 400.  A solution the collaborator refuses gets the
    document with code 400 and message "Invalid payload" under status 200:
    that branch never writes a status. *)
Theorem error_code_field_is_constant :
  (forall message status,
      StatusCode (writeErrorResponse newWriter message status) = status /\
      responses (writeErrorResponse newWriter message status)
      = [ {| Code := 400; Message := message |} ]) /\
  writerOf (Scenario.serve Scenario.world0 Scenario.anonymousRequest Scenario.t0 0).2
  = Some {| ContentType := "application/json"; wroteHeader := Some 401;
            written := [PResponse {| Code := 400; Message := "Missing API key" |}] |} /\
  writerOf (Scenario.serve Scenario.world0
              (Scenario.verifyRequest Scenario.forgedPayload) Scenario.t0 0).2
  = Some failedWriter /\
  StatusCode failedWriter = 200 /\
  responses failedWriter = [ {| Code := 400; Message := "Invalid payload" |} ].
Proof.
  split; [|split; [|split; [|split]]].
  - intros message status. split; reflexivity.
  - vm_compute. reflexivity.
  - vm_compute. reflexivity.
  - reflexivity.
  - reflexivity.
Qed.

(** *** Malformed payloads *)

Section MalformedPayload.

Context {E : Collaborators}.

(** C9, on the code.  A body that decodes to a JSON object with a string
    [challenge] whose [salt] is absent or is not a string makes the handler
    panic at the type assertion on the salt: no response is written, and the
    state is untouched. *)
Theorem salt_assertion_panics (wd : World) (apiKey : string) (r : Request) (now : Z)
    (w : ResponseWriter) (body decodedBytes id : string) (payload : gmap string JSONValue) :
  Body r = Some body ->
  DecodeString (TrimSpace body) = Some decodedBytes ->
  Unmarshal decodedBytes = Some payload ->
  assertString (payload !! "challenge") = Some id ->
  assertString (payload !! "salt") = None ->
  exists reason, handleVerifyChallenge wd (Some apiKey) r now w = (wd, Panic reason).
Proof.
  intros Hbody Hdec Hjson Hch Hsalt. unfold handleVerifyChallenge.
  rewrite Hbody, Hdec, Hjson, Hch.
  destruct (payload !! "salt") as [[]|]; try discriminate; eauto.
Qed.

(** Every parse failure before and after the salt assertion is answered with
    status 400 and leaves the state untouched. *)
Lemma parse_failures_are_400 (wd : World) (apiKey : string) (r : Request) (now : Z) :
  let res := handleVerifyChallenge wd (Some apiKey) r now newWriter in
  let bad message := res = (wd, Done (writeErrorResponse newWriter message StatusBadRequest)) in
  (Body r = None -> bad "Failed to read request body") /\
  (forall body, Body r = Some body ->
     (DecodeString (TrimSpace body) = None -> bad "Invalid base64 encoding") /\
     (forall decodedBytes, DecodeString (TrimSpace body) = Some decodedBytes ->
        (Unmarshal decodedBytes = None -> bad "Invalid JSON payload") /\
        (forall payload, Unmarshal decodedBytes = Some payload ->
           (assertString (payload !! "challenge") = None -> bad "Invalid challenge format") /\
           (forall id salt, assertString (payload !! "challenge") = Some id ->
              payload !! "salt" = Some (JString salt) ->
              (length (Split salt "?"%char) <= 1)%nat \/
              (exists base query rest,
                  Split salt "?"%char = base :: query :: rest /\
                  (ParseInt (Get (ParseQuery query) "expires") = None \/
                   exists n, ParseInt (Get (ParseQuery query) "expires") = Some n /\ n < 1)) ->
              bad "Invalid challenge format")))).
Proof.
  cbv zeta. unfold handleVerifyChallenge. split.
  - by intros ->.
  - intros body ->. split; [by intros ->|]. intros decodedBytes ->.
    split; [by intros ->|]. intros payload ->.
    split; [by intros ->|]. intros id salt -> ->.
    intros [Hlen|(base & query & rest & -> & [->|(n & -> & Hn)])].
    + destruct (Split salt "?"%char) as [|? [|? ?]]; cbn in Hlen; [done|done|lia].
    + done.
    + by rewrite (proj2 (Z.ltb_lt _ _) Hn).
Qed.

End MalformedPayload.

(** *** Binary64 rounding *)

(** The iteration of [SpecFloat] is the iteration over [nat]. *)
Lemma iter_pos_nat {A : Type} (f : A -> A) (p : positive) : forall x : A,
  SpecFloat.iter_pos f p x = Nat.iter (Pos.to_nat p) f x.
Proof.
  induction p as [p IH|p IH|]; intros x; cbn [SpecFloat.iter_pos].
  - rewrite !IH, Pos2Nat.inj_xI.
    replace (S (2 * Pos.to_nat p)) with (Pos.to_nat p + S (Pos.to_nat p))%nat by lia.
    rewrite Nat.iter_add. f_equal. symmetry. apply Nat.iter_succ_r.
  - rewrite !IH, Pos2Nat.inj_xO.
    replace (2 * Pos.to_nat p)%nat with (Pos.to_nat p + Pos.to_nat p)%nat by lia.
    now rewrite Nat.iter_add.
  - reflexivity.
Qed.

(** One step of the right shift on a non-negative mantissa: halve it, keep
    the bit shifted out as the round bit, and fold the old round bit into the
    sticky bit. *)
Lemma shr_1_nonneg (m : Z) (r s : bool) :
  0 <= m ->
  shr_1 {| shr_m := m; shr_r := r; shr_s := s |}
  = {| shr_m := Z.div2 m; shr_r := Z.odd m; shr_s := r || s |}.
Proof.
  intros Hm. destruct m as [|[p|p|]|]; try reflexivity; lia.
Qed.

(** The right shift by [k + 1] places. *)
Lemma shr_iter (M : Z) (k : nat) :
  0 <= M ->
  shifted M k (Nat.iter (S k) shr_1 {| shr_m := M; shr_r := false; shr_s := false |}).
Proof.
  intros HM. induction k as [|k IH].
  - cbn [Nat.iter nat_rect]. rewrite shr_1_nonneg by done.
    exists 0. cbn [shr_m shr_r shr_s].
    change (2 ^ Z.of_nat 1) with 2. change (2 ^ Z.of_nat 0) with 1.
    pose proof (Z.div2_odd M) as Hodd.
    pose proof (proj2 (Z.div2_nonneg M) HM) as Hnn.
    split; [done|]. split; [lia|]. split; [lia|done].
  - rewrite Nat.iter_succ.
    destruct (Nat.iter (S k) shr_1 _) as [m r s].
    destruct IH as (low & Hm & Hlow & HMeq & Hs). cbn [shr_m shr_r shr_s] in *.
    rewrite shr_1_nonneg by done.
    exists (Z.b2z r * 2 ^ Z.of_nat k + low). cbn [shr_m shr_r shr_s].
    assert (Hp : 2 ^ Z.of_nat (S k) = 2 * 2 ^ Z.of_nat k).
    { rewrite Nat2Z.inj_succ, Z.pow_succ_r by lia. reflexivity. }
    assert (Hp' : 2 ^ Z.of_nat (S (S k)) = 2 * 2 ^ Z.of_nat (S k)).
    { rewrite (Nat2Z.inj_succ (S k)), Z.pow_succ_r by lia. reflexivity. }
    assert (Hpos : 0 < 2 ^ Z.of_nat k) by (apply Z.pow_pos_nonneg; lia).
    pose proof (Z.div2_odd m) as Hodd.
    pose proof (proj2 (Z.div2_nonneg m) Hm) as Hnn.
    split; [done|]. split; [|split].
    + destruct r; cbn [Z.b2z]; lia.
    + rewrite Hp', Hp. destruct (Z.odd m), r; cbn [Z.b2z] in *; lia.
    + subst s. destruct r; cbn [Z.b2z orb].
      * symmetry. apply negb_true_iff, Z.eqb_neq. lia.
      * reflexivity.
Qed.

(** Number of binary digits. *)
Lemma digits2_pos_bounds (p : positive) :
  2 ^ (Zpos (digits2_pos p) - 1) <= Zpos p < 2 ^ Zpos (digits2_pos p).
Proof.
  induction p as [p IH|p IH|]; cbn [digits2_pos].
  - rewrite Pos2Z.inj_succ.
    replace (Z.succ (Zpos (digits2_pos p)) - 1) with (Z.succ (Zpos (digits2_pos p) - 1)) by lia.
    rewrite !Z.pow_succ_r by lia. lia.
  - rewrite Pos2Z.inj_succ.
    replace (Z.succ (Zpos (digits2_pos p)) - 1) with (Z.succ (Zpos (digits2_pos p) - 1)) by lia.
    rewrite !Z.pow_succ_r by lia. lia.
  - cbn. lia.
Qed.

Lemma digits2_pos_unique (p : positive) (d : Z) :
  2 ^ (d - 1) <= Zpos p < 2 ^ d -> Zpos (digits2_pos p) = d.
Proof.
  intros [Hlo Hhi]. pose proof (digits2_pos_bounds p) as [Hlo' Hhi'].
  assert (0 < d).
  { destruct (Z.lt_trichotomy 0 d) as [?|[<-|Hneg]]; [done| |].
    - cbn in Hhi. lia.
    - rewrite Z.pow_neg_r in Hhi by lia. lia. }
  destruct (Z.lt_trichotomy (Zpos (digits2_pos p)) d) as [Hlt|[?|Hgt]]; [|done|].
  - assert (2 ^ Zpos (digits2_pos p) <= 2 ^ (d - 1)) by (apply Z.pow_le_mono_r; lia). lia.
  - assert (2 ^ d <= 2 ^ (Zpos (digits2_pos p) - 1)) by (apply Z.pow_le_mono_r; lia). lia.
Qed.

(** Shifting a mantissa left by [n] places. *)
Lemma Zpos_iter_xO (n : positive) : forall p : positive,
  Zpos (Pos.iter xO p n) = Zpos p * 2 ^ Zpos n.
Proof.
  induction n as [n IH|n IH|]; intros p; cbn [Pos.iter].
  - rewrite Pos2Z.inj_xO, !IH, (Pos2Z.inj_xI n).
    replace (2 * Zpos n + 1) with (Zpos n + Zpos n + 1) by lia.
    rewrite !Z.pow_add_r by lia. change (2 ^ 1) with 2. lia.
  - rewrite !IH, (Pos2Z.inj_xO n).
    replace (2 * Zpos n) with (Zpos n + Zpos n) by lia.
    rewrite Z.pow_add_r by lia. lia.
  - rewrite Pos2Z.inj_xO. change (2 ^ 1) with 2. lia.
Qed.

(** A mantissa of exactly 53 digits in the exponent range is already a
    binary64 number. *)
Lemma binary_round_aux_exact (s : bool) (m : positive) (e : Z) :
  Zpos (digits2_pos m) = 53 -> -1074 <= e <= 971 ->
  binary_round_aux 53 1024 s (Zpos m) e loc_Exact = S754_finite s m e.
Proof.
  intros Hd He. unfold binary_round_aux, shr_fexp, fexp, emin.
  cbn [Zdigits2 shr_record_of_loc]. rewrite Hd.
  replace (Z.max (53 + e - 53) (3 - 1024 - 53) - e) with 0 by lia.
  cbn [shr shr_m loc_of_shr_record round_nearest_even Zdigits2]. rewrite Hd.
  replace (Z.max (53 + e - 53) (3 - 1024 - 53) - e) with 0 by lia.
  cbn [shr shr_m]. rewrite (proj2 (Z.leb_le _ _)) by lia. reflexivity.
Qed.

(** Rounding a longer mantissa: the result is within half a unit of the last
    kept place of the exact value. *)
Lemma binary_round_aux_nearest (M : positive) (E : Z) (n : positive) :
  Zpos (digits2_pos M) = 53 + Zpos n ->
  -1074 <= E + Zpos n -> E + Zpos n + 1 <= 971 ->
  exists m e,
    binary_round_aux 53 1024 false (Zpos M) E loc_Exact = S754_finite false m e /\
    E + Zpos n <= e <= E + Zpos n + 1 /\
    Z.abs (Zpos m * 2 ^ (e - E) - Zpos M) <= 2 ^ (Zpos n - 1).
Proof.
  intros Hd Hlo Hhi.
  pose proof (digits2_pos_bounds M) as [HMlo HMhi]. rewrite Hd in HMlo, HMhi.
  unfold binary_round_aux.
  assert (Hsh1 : shr_fexp 53 1024 (Zpos M) E loc_Exact
                 = (SpecFloat.iter_pos shr_1 n {| shr_m := Zpos M; shr_r := false; shr_s := false |},
                    E + Zpos n)).
  { unfold shr_fexp, fexp, emin. cbn [Zdigits2 shr_record_of_loc]. rewrite Hd.
    replace (Z.max (53 + Zpos n + E - 53) (3 - 1024 - 53) - E) with (Zpos n) by lia.
    reflexivity. }
  rewrite Hsh1. rewrite iter_pos_nat.
  destruct (Pos2Nat.is_succ n) as [k Hk]. rewrite Hk.
  assert (Hkn : Z.of_nat k = Zpos n - 1).
  { rewrite <- (positive_nat_Z n), Hk. lia. }
  pose proof (shr_iter (Zpos M) k ltac:(lia)) as Hinv.
  destruct (Nat.iter (S k) shr_1 _) as [m1 r s].
  destruct Hinv as (low & Hm1 & Hlow & HMeq & Hs). cbn [shr_m shr_r shr_s] in *.
  rewrite Nat2Z.inj_succ, Hkn in HMeq. rewrite Hkn in Hlow.
  replace (Z.succ (Zpos n - 1)) with (Zpos n) in HMeq by lia.
  set (P := 2 ^ (Zpos n - 1)) in *.
  assert (HP : 0 < P) by (apply Z.pow_pos_nonneg; lia).
  assert (HPn : 2 ^ Zpos n = 2 * P).
  { subst P. rewrite <- Z.pow_succ_r by lia. f_equal. lia. }
  assert (H52 : 2 ^ (53 + Zpos n - 1) = 2 ^ 52 * (2 * P)).
  { rewrite <- HPn, <- Z.pow_add_r by lia. f_equal. lia. }
  assert (H53 : 2 ^ (53 + Zpos n) = 2 ^ 53 * (2 * P)).
  { rewrite <- HPn, <- Z.pow_add_r by lia. reflexivity. }
  rewrite H52 in HMlo. rewrite H53 in HMhi. rewrite HPn in HMeq.
  change (2 ^ 52) with 4503599627370496 in *.
  change (2 ^ 53) with 9007199254740992 in *.
  assert (Hm1b : 4503599627370496 <= m1 < 9007199254740992).
  { destruct r; cbn [Z.b2z] in HMeq; nia. }
  set (M2 := round_nearest_even m1
               (loc_of_shr_record {| shr_m := m1; shr_r := r; shr_s := s |})).
  assert (HM2 : m1 <= M2 <= m1 + 1 /\ Z.abs (M2 * (2 * P) - Zpos M) <= P).
  { subst M2. destruct r, s; cbn [loc_of_shr_record round_nearest_even Z.b2z] in *.
    - symmetry in Hs. apply negb_true_iff, Z.eqb_neq in Hs. lia.
    - symmetry in Hs. apply negb_false_iff, Z.eqb_eq in Hs.
      destruct (Z.even m1); lia.
    - lia.
    - symmetry in Hs. apply negb_false_iff, Z.eqb_eq in Hs. lia. }
  destruct HM2 as [HM2r HM2d].
  destruct (Z.eq_dec M2 9007199254740992) as [Hcarry|Hnc].
  - (* the mantissa overflows to 2^53: one more shift *)
    exists 4503599627370496%positive, (E + Zpos n + 1).
    rewrite Hcarry.
    split; [|split; [lia|]].
    + unfold shr_fexp, fexp, emin.
      change (Zdigits2 9007199254740992) with 54. cbn [shr_record_of_loc].
      replace (Z.max (54 + (E + Zpos n) - 53) (3 - 1024 - 53) - (E + Zpos n)) with 1 by lia.
      cbn [shr SpecFloat.iter_pos shr_1 shr_m].
      rewrite (proj2 (Z.leb_le _ _)) by lia. reflexivity.
    + replace (E + Zpos n + 1 - E) with (Z.succ (Zpos n)) by lia.
      rewrite Z.pow_succ_r, HPn by lia. rewrite Hcarry in HM2d. lia.
  - destruct M2 as [|q|q] eqn:HM2e; [lia| |lia].
    exists q, (E + Zpos n).
    assert (Hdq : Zpos (digits2_pos q) = 53).
    { apply digits2_pos_unique. change (2 ^ (53 - 1)) with 4503599627370496.
      change (2 ^ 53) with 9007199254740992. lia. }
    split; [|split; [lia|]].
    + unfold shr_fexp, fexp, emin. cbn [Zdigits2 shr_record_of_loc]. rewrite Hdq.
      replace (Z.max (53 + (E + Zpos n) - 53) (3 - 1024 - 53) - (E + Zpos n)) with 0 by lia.
      cbn [shr shr_m]. rewrite (proj2 (Z.leb_le _ _)) by lia. reflexivity.
    + replace (E + Zpos n - E) with (Zpos n) by lia. rewrite HPn. lia.
Qed.

(** At a count of 25 the factor is the double nearest to 1.2. *)
Lemma factor_25 : factor 25 = S754_finite false 5404319552844595 (-52).
Proof. vm_compute. reflexivity. Qed.

(** [float64(n)] is exact for a positive integer below 2^52: its mantissa is
    [n] shifted left to 53 digits. *)
Lemma of_int_small (p : positive) :
  Zpos p < 2 ^ 52 ->
  exists mz : positive,
    Float64.of_int (Zpos p)
    = S754_finite false mz (Zpos (digits2_pos p) - 53) /\
    Zpos mz = Zpos p * 2 ^ (53 - Zpos (digits2_pos p)) /\
    2 ^ 52 <= Zpos mz < 2 ^ 53.
Proof.
  intros Hp. pose proof (digits2_pos_bounds p) as [Hlo Hhi].
  set (d := Zpos (digits2_pos p)) in *.
  assert (Hd : 1 <= d <= 52).
  { split; [subst d; lia|].
    destruct (Z.le_gt_cases d 52) as [?|Hgt]; [done|].
    assert (2 ^ 52 <= 2 ^ (d - 1)) by (apply Z.pow_le_mono_r; lia). lia. }
  set (k := Z.to_pos (53 - d)).
  assert (Hk : Zpos k = 53 - d) by (subst k; rewrite Z2Pos.id; lia).
  exists (Pos.iter xO p k).
  assert (Hmz : Zpos (Pos.iter xO p k) = Zpos p * 2 ^ (53 - d)).
  { rewrite Zpos_iter_xO, Hk. reflexivity. }
  assert (Hpow : 2 ^ (d - 1) * 2 ^ (53 - d) = 2 ^ 52).
  { rewrite <- Z.pow_add_r by lia. f_equal. lia. }
  assert (Hpow' : 2 ^ d * 2 ^ (53 - d) = 2 ^ 53).
  { rewrite <- Z.pow_add_r by lia. f_equal. lia. }
  assert (HS : 0 < 2 ^ (53 - d)) by (apply Z.pow_pos_nonneg; lia).
  assert (Hb : 2 ^ 52 <= Zpos (Pos.iter xO p k) < 2 ^ 53).
  { rewrite Hmz, <- Hpow, <- Hpow'. split.
    - apply Z.mul_le_mono_nonneg_r; lia.
    - apply Z.mul_lt_mono_pos_r; lia. }
  split; [|split; [done|done]].
  unfold Float64.of_int, binary_normalize, binary_round, shl_align, fexp, emin,
    Float64.prec, Float64.emax.
  fold d.
  replace (Z.max (d + 0 - 53) (3 - 1024 - 53) - 0) with (Zneg k) by lia.
  replace (Z.max (d + 0 - 53) (3 - 1024 - 53)) with (d - 53) by lia.
  apply binary_round_aux_exact; [|lia].
  apply digits2_pos_unique. exact Hb.
Qed.

(** The double nearest to 1.2 times an integer below 2^50, truncated: the
    integer part of six fifths of it. *)
Lemma scaled_by_six_fifths (B : Z) :
  0 < B < 2 ^ 50 ->
  Float64.to_int64 (Float64.mul (Float64.of_int B) (factor 25)) = 6 * B / 5.
Proof.
  intros [HB0 HB]. destruct B as [|p|p]; try lia.
  destruct (of_int_small p) as (mz & -> & Hmz & Hmzb).
  { change (2 ^ 50) with 1125899906842624 in HB.
    change (2 ^ 52) with 4503599627370496. lia. }
  rewrite factor_25.
  pose proof (digits2_pos_bounds p) as [Hlo Hhi].
  set (d := Zpos (digits2_pos p)) in *.
  assert (Hd : 1 <= d <= 50).
  { split; [subst d; lia|].
    destruct (Z.le_gt_cases d 50) as [?|Hgt]; [done|].
    assert (2 ^ 50 <= 2 ^ (d - 1)) by (apply Z.pow_le_mono_r; lia). lia. }
  set (S := 2 ^ (53 - d)) in *.
  assert (HS8 : 8 <= S).
  { subst S. change 8 with (2 ^ 3). apply Z.pow_le_mono_r; lia. }
  unfold Float64.mul, SFmul, Float64.prec, Float64.emax. cbn [xorb].
  set (M := (mz * 5404319552844595)%positive).
  assert (HM : Zpos M = Zpos mz * 5404319552844595) by (subst M; apply Pos2Z.inj_mul).
  change (2 ^ 52) with 4503599627370496 in *.
  change (2 ^ 53) with 9007199254740992 in *.
  (* the number of digits of the product, and the shift *)
  assert (Hn : exists n : positive,
             Zpos (digits2_pos M) = 53 + Zpos n /\ 52 <= Zpos n <= 53).
  { destruct (Z.lt_ge_cases (Zpos M) (2 ^ 105)) as [Hlt|Hge].
    - exists 52%positive. split; [|lia]. apply digits2_pos_unique.
      change (2 ^ (53 + 52 - 1)) with 20282409603651670423947251286016.
      change (2 ^ (53 + 52)) with (2 ^ 105). nia.
    - exists 53%positive. split; [|lia]. apply digits2_pos_unique.
      change (2 ^ (53 + 53 - 1)) with (2 ^ 105).
      change (2 ^ (53 + 53)) with 81129638414606681695789005144064. nia. }
  destruct Hn as (n & HdM & Hn).
  destruct (binary_round_aux_nearest M (d - 53 + -52) n HdM ltac:(lia) ltac:(lia))
    as (m & e & -> & He & Hnear).
  (* the exponent is negative: the conversion shifts right *)
  destruct e as [|e|e]; [lia|lia|].
  unfold Float64.to_int64.
  rewrite Z.shiftr_div_pow2 by lia.
  set (K := Zpos e) in *.
  assert (HK : K = 105 - d - (Zneg e - (d - 53 + -52))) by (subst K; lia).
  set (t := Zneg e - (d - 53 + -52)) in *.
  assert (Ht : Zpos n <= t <= Zpos n + 1) by lia.
  set (P := 2 ^ (Zpos n - 1)) in *.
  set (T := 2 ^ t) in *.
  assert (HTK : T * 2 ^ K = 4503599627370496 * S).
  { subst T S. rewrite <- Z.pow_add_r by lia.
    change 4503599627370496 with (2 ^ 52). rewrite <- Z.pow_add_r by lia. f_equal. lia. }
  assert (HP51 : 2251799813685248 <= P <= 4503599627370496).
  { subst P. change 2251799813685248 with (2 ^ 51). change 4503599627370496 with (2 ^ 52).
    split; apply Z.pow_le_mono_r; lia. }
  assert (HT : 2 * P <= T).
  { subst P T. rewrite <- Z.pow_succ_r by lia. apply Z.pow_le_mono_r; lia. }
  assert (HKpos : 0 < 2 ^ K) by (apply Z.pow_pos_nonneg; lia).
  assert (HTpos : 0 < T) by (subst T; apply Z.pow_pos_nonneg; lia).
  (* six fifths *)
  pose proof (Z.div_mod (6 * Zpos p) 5 ltac:(lia)) as Hdiv.
  pose proof (Z.mod_pos_bound (6 * Zpos p) 5 ltac:(lia)) as Hrem.
  set (Q := 6 * Zpos p / 5) in *. set (r := (6 * Zpos p) mod 5) in *.
  assert (HQ : Zpos m / 2 ^ K = Q).
  { symmetry. apply (Z.div_unique_pos _ _ Q (Zpos m - Q * 2 ^ K)); [|lia].
    apply Z.abs_le in Hnear.
    assert (Hup : Zpos m * T < (Q + 1) * (2 ^ K * T)) by nia.
    assert (Hdn : Q * (2 ^ K * T) - T < Zpos m * T).
    { destruct (Z.eq_dec r 0) as [Hr0|Hr]; nia. }
    split; nia. }
  rewrite HQ.
  assert (HQb : 0 <= Q < 2 ^ 51).
  { change (2 ^ 50) with 1125899906842624 in HB.
    change (2 ^ 51) with 2251799813685248. lia. }
  change (2 ^ 51) with 2251799813685248 in HQb.
  unfold MinInt64, MaxInt64.
  change (2 ^ 63) with 9223372036854775808.
  rewrite (proj2 (andb_true_iff _ _)); [reflexivity|].
  split; apply Z.leb_le; lia.
Qed.

(** *** Complexity controller *)

(** C8, as the code has it.  For an address whose stored count is 25 and
    whose last request is not older than five minutes, and a base complexity
    [B] with [0 < B < 2^50]: the factor is the double nearest to 1.2, and the
    adjusted complexity is the binary64 product of [B] and that factor
    truncated to an integer, which is the integer part of [6 * B / 5]; it is
    [B * 1.2] exactly when 5 divides [B], and 60000 for [B = 50000].  The
    call leaves the count at 26 and the last-seen time at the clock. *)
Theorem adjusted_complexity_at_25 (s : Server) (ip : string) (now : Z) :
  ipRequestCount s !! ip = Some 25 ->
  (forall lastTime, ipLastRequest s !! ip = Some lastTime -> Since now lastTime <= 5 * Minute) ->
  0 < Complexity (config s) < 2 ^ 50 ->
  let B := Complexity (config s) in
  let res := getAdjustedComplexity s ip now in
  factor 25 = S754_finite false 5404319552844595 (-52) /\
  res.1 = 6 * B / 5 /\
  ((5 | B) -> 5 * res.1 = 6 * B) /\
  (B = 50000 -> res.1 = 60000) /\
  ipRequestCount res.2 !! ip = Some 26 /\
  ipLastRequest res.2 !! ip = Some now.
Proof.
  intros Hcount Hidle HB. cbv zeta.
  assert (Hres : getAdjustedComplexity s ip now
                 = (6 * Complexity (config s) / 5,
                    {| config := config s;
                       ipRequestCount := <[ip := 26]> (ipRequestCount s);
                       ipLastRequest := <[ip := now]> (ipLastRequest s) |})).
  { unfold getAdjustedComplexity. rewrite Hcount. cbn [default].
    rewrite bool_decide_eq_true_2 by eauto.
    destruct (ipLastRequest s !! ip) as [lastTime|] eqn:Hlast.
    - specialize (Hidle lastTime eq_refl).
      rewrite (proj2 (Z.ltb_ge _ _) Hidle). cbn [andb].
      change (10 <? 25) with true. cbv iota.
      rewrite scaled_by_six_fifths by done. reflexivity.
    - cbn [andb]. change (10 <? 25) with true. cbv iota.
      rewrite scaled_by_six_fifths by done. reflexivity. }
  rewrite Hres. cbn [fst snd ipRequestCount ipLastRequest].
  split; [exact factor_25|]. split; [reflexivity|]. split; [|split; [|split]].
  - intros [k Hk]. rewrite Hk. replace (6 * (k * 5)) with (6 * k * 5) by lia.
    rewrite Z.div_mul by lia. lia.
  - intros ->. reflexivity.
  - by rewrite lookup_insert_eq.
  - by rewrite lookup_insert_eq.
Qed.

(** *** The theorems at concrete requests *)


(** C3 at the valid solution, whose salt gives an expiry in the year 2100:
    accepted at the start instant, swept five minutes later, accepted
    again a minute after that. *)
Lemma sweep_removes_unexpired_entry_witness :
  let first := Scenario.verify Scenario.world0 (Some Scenario.apiKey)
                 (Scenario.verifyRequest Scenario.goodPayload) Scenario.t0 newWriter in
  let swept := step (E := Sample.env) first.1 (EvSweep (Scenario.t0 + 5 * Minute)) in
  solvedChallenges (cm first.1) !! "c0ffee" = Some 4102444800 /\
  Scenario.t0 + 5 * Minute < expiryInstant 4102444800 /\
  solvedChallenges (cm swept) !! "c0ffee" = None /\
  (Scenario.verify swept (Some Scenario.apiKey)
     (Scenario.verifyRequest Scenario.goodPayload) (Scenario.t0 + 6 * Minute) newWriter).2
  = Done okWriter.
Proof.
  unshelve epose proof (sweep_removes_unexpired_entry (E := Sample.env) Scenario.world0
                Scenario.apiKey (Scenario.verifyRequest Scenario.goodPayload) Scenario.t0
                (Scenario.t0 + 5 * Minute) (Scenario.t0 + 6 * Minute)
                Scenario.goodPayload _ _ "c0ffee" "abc?expires=4102444800" "abc"
                "expires=4102444800" [] 4102444800 _ _ _ _ _ _ _ _ _ _ _ _ _) as H;
    [try (vm_compute; reflexivity) .. | ].
  - vm_compute. discriminate.
  - vm_compute. split; discriminate.
  - cbv zeta in H. destruct H as (_ & Hin & _ & Hgone & _ & Hagain & _).
    cbv zeta. split; [exact Hin|]. split; [vm_compute; reflexivity|].
    split; [exact Hgone | exact Hagain].
Defined.

(** C5 at the valid solution, posted to the server right after start-up. *)
Lemma valid_once_then_replay_witness :
  (Scenario.verify Scenario.world0 (Some Scenario.apiKey)
     (Scenario.verifyRequest Scenario.goodPayload) Scenario.t0 newWriter).2
  = Done okWriter /\
  Scenario.verify Scenario.world1 (Some Scenario.apiKey)
    (Scenario.verifyRequest Scenario.goodPayload) (Scenario.t0 + Second) newWriter
  = (Scenario.world1, Done replayWriter).
Proof.
  unshelve epose proof (valid_once_then_replay (E := Sample.env) Scenario.world0
                Scenario.apiKey (Scenario.verifyRequest Scenario.goodPayload) Scenario.t0
                Scenario.goodPayload _ _ "c0ffee" "abc?expires=4102444800" "abc"
                "expires=4102444800" [] 4102444800 _ _ _ _ _ _ _ _ _ _) as H;
    try (vm_compute; reflexivity).
  - vm_compute. discriminate.
  - cbv zeta in H. destruct H as (Hfirst & _ & _ & _ & _ & Hreplay & _).
    split; [exact Hfirst|].
    apply Hreplay. exists 4102444800. vm_compute. reflexivity.
Defined.

(** C6 at the registered credential with its registered origin. *)
Lemma origin_admission_witness :
  (forall w next,
      APIKeyMiddleware Scenario.world0
        (Scenario.verifyRequest Scenario.goodPayload) w next
      = next (Some (Get (Query (Scenario.verifyRequest Scenario.goodPayload)) "apiKey")))
  <-> Get (Header (Scenario.verifyRequest Scenario.goodPayload)) "Origin" <> EmptyString /\
      Get (Header (Scenario.verifyRequest Scenario.goodPayload)) "Origin" ∈ [Scenario.origin].
Proof.
  pose proof (origin_admission Scenario.world0
                (Scenario.verifyRequest Scenario.goodPayload) [Scenario.origin]) as H.
  cbv zeta in H. destruct H as (H & _).
  - vm_compute. discriminate.
  - vm_compute. reflexivity.
  - vm_compute. reflexivity.
  - refine (proj1 (H _)). intros Hin. apply list_elem_of_In in Hin.
    destruct Hin as [Hin|[]]. vm_compute in Hin. discriminate.
Defined.

(** C10 at a request without credential. *)
Lemma rejected_credential_effects_witness :
  (exists w, (Scenario.serve Scenario.world0 Scenario.anonymousRequest Scenario.t0 0).2 = Done w
             /\ StatusCode w = StatusUnauthorized) /\
  server (Scenario.serve Scenario.world0 Scenario.anonymousRequest Scenario.t0 0).1
  = server Scenario.world0.
Proof.
  pose proof (rejected_credential_effects (E := Sample.env) Scenario.world0
                Scenario.anonymousRequest Scenario.t0 0) as H.
  cbv zeta in H. destruct H as (Hw & Hs & _).
  - discriminate.
  - left. vm_compute. reflexivity.
  - vm_compute. reflexivity.
  - split; [exact Hw | exact Hs].
Defined.

(** C9 at the payload without salt. *)
Lemma salt_assertion_panics_witness :
  exists reason,
    Scenario.verify Scenario.world0 (Some Scenario.apiKey)
      (Scenario.verifyRequest Scenario.noSaltPayload) Scenario.t0 newWriter
    = (Scenario.world0, Panic reason).
Proof.
  unshelve eapply (salt_assertion_panics (E := Sample.env) Scenario.world0 Scenario.apiKey
           (Scenario.verifyRequest Scenario.noSaltPayload) Scenario.t0 newWriter
           Scenario.noSaltPayload _ "c0ffee" _); try (vm_compute; reflexivity).
Defined.

(** C8 at the default base complexity. *)
Lemma adjusted_complexity_at_25_witness :
  (getAdjustedComplexity (Scenario.busyServer 50000) Scenario.ip (Scenario.t0 + Minute)).1
  = 60000.
Proof.
  pose proof (adjusted_complexity_at_25 (Scenario.busyServer 50000) Scenario.ip
                (Scenario.t0 + Minute)) as H.
  cbv zeta in H. destruct H as (_ & _ & _ & H & _).
  - vm_compute. reflexivity.
  - intros lastTime Hlast. vm_compute in Hlast. injection Hlast as <-.
    vm_compute. discriminate.
  - split; vm_compute; reflexivity.
  - exact (H eq_refl).
Defined.

(** C8, as stated, fails: with base complexity 50001 and a count of 25 the
    adjusted complexity is 60001, which is not 50001 * 1.2 = 60001.2. *)
Lemma adjusted_complexity_is_truncated :
  (getAdjustedComplexity (Scenario.busyServer 50001) Scenario.ip (Scenario.t0 + Minute)).1
  = 60001 /\
  5 * (getAdjustedComplexity (Scenario.busyServer 50001) Scenario.ip (Scenario.t0 + Minute)).1
  <> 6 * Complexity (config (Scenario.busyServer 50001)).
Proof.
  assert (H : (getAdjustedComplexity (Scenario.busyServer 50001) Scenario.ip
                 (Scenario.t0 + Minute)).1 = 60001) by (vm_compute; reflexivity).
  split; [exact H|]. rewrite H. vm_compute. discriminate.
Qed.

(** ** More properties *)

(** *** Rate limiter, continued *)

(** A rejected call leaves the store as it is: with a positive ceiling only
    an existing entry inside its window and at the ceiling is rejected. *)
Lemma LimitByIP_rejected_unchanged (ip : string) (limit window : Z)
    (store : gmap string ipRateLimit) (now : Z) :
  0 < limit ->
  (LimitByIP ip limit window store now).1 = false ->
  (LimitByIP ip limit window store now).2 = store /\
  exists info, store !! ip = Some info /\ limit <= Count info /\ now <= ResetAt info.
Proof.
  intros Hlimit. unfold LimitByIP, After.
  destruct (store !! ip) as [info|] eqn:Hs; cbn [Count ResetAt].
  - destruct (ResetAt info <? now) eqn:Hr; cbn [Count ResetAt].
    + rewrite (proj2 (Z.leb_gt _ _)) by lia. done.
    + destruct (limit <=? Count info) eqn:Hc; [|done]. cbn [fst snd]. intros _.
      split; [by apply insert_id|]. exists info.
      apply Z.leb_le in Hc. apply Z.ltb_ge in Hr. done.
  - destruct (Add now window <? now); cbn [Count ResetAt];
      rewrite (proj2 (Z.leb_gt _ _)) by lia; done.
Qed.

(** One call keeps every count between 1 and the ceiling. *)
Lemma LimitByIP_counts (ip : string) (store : gmap string ipRateLimit) (now : Z) :
  countsWithinCeiling store ->
  countsWithinCeiling (LimitByIP ip MaxRequestsPerIP RequestLimitWindow store now).2.
Proof.
  intros Hinv ip' info'. unfold LimitByIP, After.
  assert (H1 : incr64 0 = 1) by reflexivity.
  destruct (store !! ip) as [info|] eqn:Hs; cbn [Count ResetAt].
  - pose proof (Hinv ip info Hs) as Hb.
    destruct (ResetAt info <? now); cbn [Count ResetAt].
    + change (MaxRequestsPerIP <=? 0) with false. cbn [snd].
      destruct (decide (ip = ip')) as [->|Hne].
      * rewrite lookup_insert_eq. intros [= <-]. cbn. unfold MaxRequestsPerIP. lia.
      * rewrite lookup_insert_ne by done. apply Hinv.
    + destruct (MaxRequestsPerIP <=? Count info) eqn:Hc; cbn [snd].
      * rewrite insert_id by done. apply Hinv.
      * apply Z.leb_gt in Hc.
        destruct (decide (ip = ip')) as [->|Hne].
        -- rewrite lookup_insert_eq. intros [= <-]. cbn [Count].
           rewrite incr64_small; unfold MaxRequestsPerIP, MinInt64, MaxInt64 in *; lia.
        -- rewrite lookup_insert_ne by done. apply Hinv.
  - destruct (Add now RequestLimitWindow <? now); cbn [Count ResetAt];
      change (MaxRequestsPerIP <=? 0) with false; cbn [snd];
      (destruct (decide (ip = ip')) as [->|Hne];
       [rewrite lookup_insert_eq; intros [= <-]; cbn; unfold MaxRequestsPerIP; lia
       |rewrite lookup_insert_ne by done; apply Hinv]).
Qed.

Section RateLimiterRuns.

Context {E : Collaborators}.

(** Whatever the route and the answer, the store after a request is the one
    [LimitByIP] leaves for the address of the request. *)
Lemma ServeHTTP_limits (wd : World) (r : Request) (now rnd : Z) :
  ipLimits (rateLimiter (ServeHTTP wd r now rnd).1)
  = (LimitByIP (GetRealIP r) MaxRequestsPerIP RequestLimitWindow
       (ipLimits (rateLimiter wd)) now).2.
Proof.
  unfold ServeHTTP, RateLimitMiddleware, APIKeyMiddleware,
    handleVerifyChallenge, handleGetChallenge.
  repeat case_match; simplify_eq; cbn; done.
Qed.

Lemma step_limits_counts (wd : World) (e : Event) :
  countsWithinCeiling (ipLimits (rateLimiter wd)) ->
  countsWithinCeiling (ipLimits (rateLimiter (step wd e))).
Proof.
  intros Hinv. destruct e as [r now rnd|now]; cbn [step rateLimiter]; [|done].
  rewrite ServeHTTP_limits. by apply LimitByIP_counts.
Qed.

(** X2.  In every state reached from start-up by requests and sweeps, every
    entry of the rate limiter has a count of at least 1 and at most the
    ceiling 100: an entry is created or reset only by a request that is then
    admitted and counted, and a count at the ceiling is never incremented (so
    [Count++] cannot overflow). *)
Theorem rate_count_within_ceiling (c : ServerConfig) (d : Z) (es : list Event)
    (ip : string) (info : ipRateLimit) :
  ipLimits (rateLimiter (run (initWorld c d) es)) !! ip = Some info ->
  1 <= Count info <= 100.
Proof.
  revert ip info. change (countsWithinCeiling (ipLimits (rateLimiter (run (initWorld c d) es)))).
  assert (Hgen : forall wd, countsWithinCeiling (ipLimits (rateLimiter wd)) ->
                            countsWithinCeiling (ipLimits (rateLimiter (run wd es)))).
  { induction es as [|e es IH]; intros wd Hwd; [done|].
    cbn [run fold_left]. apply IH. by apply step_limits_counts. }
  apply Hgen. intros ip info Hin. cbn in Hin. by rewrite lookup_empty in Hin.
Qed.

(** X3.  A request answered with status 429 leaves the whole process state
    as it is, the rate limiter included: the rejected request is not
    counted and does not move the window. *)
Theorem rate_limited_request_changes_nothing (wd : World) (r : Request) (now rnd : Z)
    (w : ResponseWriter) :
  (ServeHTTP wd r now rnd).2 = Done w ->
  StatusCode w = StatusTooManyRequests ->
  (ServeHTTP wd r now rnd).1 = wd /\
  (LimitByIP (GetRealIP r) MaxRequestsPerIP RequestLimitWindow
     (ipLimits (rateLimiter wd)) now).1 = false.
Proof.
  pose proof (LimitByIP_rejected_unchanged (GetRealIP r) MaxRequestsPerIP
                RequestLimitWindow (ipLimits (rateLimiter wd)) now ltac:(done)) as Hrej.
  unfold ServeHTTP, RateLimitMiddleware in *.
  destruct (LimitByIP (GetRealIP r) MaxRequestsPerIP RequestLimitWindow
              (ipLimits (rateLimiter wd)) now) as [allowed store] eqn:Hlim.
  cbn [fst snd] in *. destruct allowed; cbn [negb].
  - intros Hout Hst. exfalso. revert Hout Hst.
    unfold APIKeyMiddleware, handleVerifyChallenge, handleGetChallenge, handleRoot.
    repeat case_match; simplify_eq; cbn; intros; simplify_eq; done.
  - intros _ _. destruct (Hrej eq_refl) as [-> _]. split; [|done].
    by destruct wd as [? [?] ? ?].
Qed.

(** The rate limiter never forgets an address. *)
Lemma run_keeps_address (es : list Event) : forall (wd : World) (ip : string),
  is_Some (ipLimits (rateLimiter wd) !! ip) ->
  is_Some (ipLimits (rateLimiter (run wd es)) !! ip).
Proof.
  induction es as [|e es IH]; intros wd ip Hin; [done|].
  cbn [run fold_left]. apply IH.
  destruct e as [r now rnd|now]; cbn [step rateLimiter]; [|done].
  rewrite ServeHTTP_limits. unfold LimitByIP.
  repeat case_match; cbn [snd];
    (destruct (decide (GetRealIP r = ip)) as [->|Hne];
     [rewrite lookup_insert_eq; eauto | by rewrite lookup_insert_ne]).
Qed.

(** X4.  Addresses are independent and never forgotten: a call of
    [LimitByIP] for one address leaves the entry of every other address as it
    is, and always leaves an entry for its own; through any run of requests
    and sweeps an address that has an entry keeps one (the map only
    grows). *)
Theorem rate_limiter_keeps_addresses (ip : string) (limit window : Z)
    (store : gmap string ipRateLimit) (now : Z) :
  (forall other, other <> ip ->
     (LimitByIP ip limit window store now).2 !! other = store !! other) /\
  is_Some ((LimitByIP ip limit window store now).2 !! ip) /\
  (forall wd es a,
     is_Some (ipLimits (rateLimiter wd) !! a) ->
     is_Some (ipLimits (rateLimiter (run wd es)) !! a)).
Proof.
  split; [|split].
  - intros other Hne. unfold LimitByIP.
    repeat case_match; cbn [snd]; by rewrite lookup_insert_ne.
  - unfold LimitByIP. repeat case_match; cbn [snd]; rewrite lookup_insert_eq; eauto.
  - intros wd es a. apply run_keeps_address.
Qed.

End RateLimiterRuns.

(** Calls one after the other. *)
Lemma LimitSeq_app (ip : string) (ts1 ts2 : list Z) : forall store,
  LimitSeq ip store (ts1 ++ ts2)%list
  = (((LimitSeq ip store ts1).1 ++ (LimitSeq ip (LimitSeq ip store ts1).2 ts2).1)%list,
     (LimitSeq ip (LimitSeq ip store ts1).2 ts2).2).
Proof.
  induction ts1 as [|t ts1 IH]; intros store; cbn [LimitSeq app].
  - cbn [fst snd]. by destruct (LimitSeq ip store ts2).
  - destruct (LimitByIP ip MaxRequestsPerIP RequestLimitWindow store t) as [v store'].
    rewrite IH. destruct (LimitSeq ip store' ts1) as [vs1 s1]. cbn [fst snd].
    by destruct (LimitSeq ip s1 ts2).
Qed.

(** X5.  The fixed window admits up to twice the ceiling around a boundary:
    for an address not seen before, the request that opens a window and 99
    more up to and including the boundary instant, then 100 requests
    starting anywhere after the boundary and staying inside the window the
    first of them opens, are all admitted: 200 admissions, of which the last
    199 may lie within a nanosecond of each other. *)
Theorem boundary_burst_passes (ip : string) (store : gmap string ipRateLimit)
    (t1 t2 : Z) (ts1 ts2 : list Z) :
  store !! ip = None ->
  length ts1 = 99%nat -> Forall (fun t => t <= t1 + RequestLimitWindow) ts1 ->
  t1 + RequestLimitWindow < t2 ->
  length ts2 = 99%nat -> Forall (fun t => t <= t2 + RequestLimitWindow) ts2 ->
  (LimitSeq ip store ((t1 :: ts1) ++ (t2 :: ts2))%list).1 = repeat true 200.
Proof.
  intros Hfresh Hl1 Hts1 Ht2 Hl2 Hts2.
  assert (H1 : LimitSeq ip store (t1 :: ts1)
               = (repeat true 100,
                  <[ip := {| Count := 100; ResetAt := t1 + RequestLimitWindow |}]> store)).
  { cbn [LimitSeq]. rewrite LimitByIP_fresh by done.
    rewrite (LimitSeq_accepts ip ts1 _ 1 (t1 + RequestLimitWindow));
      [|by rewrite lookup_insert_eq|lia|rewrite Hl1; unfold MaxRequestsPerIP; lia|done].
    rewrite insert_insert_eq, Hl1. reflexivity. }
  rewrite LimitSeq_app, H1. cbn [fst snd].
  cbn [LimitSeq].
  rewrite (LimitByIP_reset ip _ t2 100 (t1 + RequestLimitWindow))
    by (by rewrite ?lookup_insert_eq).
  rewrite (LimitSeq_accepts ip ts2 _ 1 (t2 + RequestLimitWindow));
    [|by rewrite lookup_insert_eq|lia|rewrite Hl2; unfold MaxRequestsPerIP; lia|done].
  rewrite Hl2. cbn [fst]. reflexivity.
Qed.

(** *** Complexity controller, continued *)

(** X6.  Below the threshold the base complexity is returned unchanged: for
    an address without a stored count, or whose count after the inactivity
    rule is at most 10, [getAdjustedComplexity] returns the configured
    complexity.  In every case the call stores that count plus one and the
    clock for this address, leaves the entries of every other address as
    they are, and never touches the configuration. *)
Theorem base_complexity_below_threshold (s : Server) (ip : string) (now : Z) :
  let effective :=
    match ipLastRequest s !! ip with
    | Some lastTime =>
        if 5 * Minute <? Since now lastTime then 0 else default 0 (ipRequestCount s !! ip)
    | None => default 0 (ipRequestCount s !! ip)
    end in
  let res := getAdjustedComplexity s ip now in
  (ipRequestCount s !! ip = None \/ effective <= 10 -> res.1 = Complexity (config s)) /\
  ipRequestCount res.2 !! ip = Some (incr64 effective) /\
  ipLastRequest res.2 !! ip = Some now /\
  (forall other, other <> ip ->
     ipRequestCount res.2 !! other = ipRequestCount s !! other /\
     ipLastRequest res.2 !! other = ipLastRequest s !! other) /\
  config res.2 = config s.
Proof.
  cbv zeta. unfold getAdjustedComplexity.
  set (effective := match ipLastRequest s !! ip with
                    | Some lastTime =>
                        if 5 * Minute <? Since now lastTime then 0
                        else default 0 (ipRequestCount s !! ip)
                    | None => default 0 (ipRequestCount s !! ip)
                    end).
  split; [|split; [|split; [|split]]].
  - intros [Hnone|Hle].
    + rewrite Hnone. rewrite bool_decide_eq_false_2 by (by intros [? ?]). done.
    + rewrite (proj2 (Z.ltb_ge 10 effective)) by lia. by rewrite andb_false_r.
  - destruct (_ && _); cbn [snd ipRequestCount]; by rewrite lookup_insert_eq.
  - destruct (_ && _); cbn [snd ipLastRequest]; by rewrite lookup_insert_eq.
  - intros other Hne.
    destruct (_ && _); cbn [snd ipRequestCount ipLastRequest];
      by rewrite !lookup_insert_ne.
  - by destruct (_ && _).
Qed.

(** X7.  Inactivity resets the count: when the last request of the address
    is more than five minutes old, the call returns the base complexity
    whatever the stored count was, and stores a count of 1. *)
Theorem idle_address_starts_over (s : Server) (ip : string) (now lastTime : Z) :
  ipLastRequest s !! ip = Some lastTime ->
  5 * Minute < Since now lastTime ->
  (getAdjustedComplexity s ip now).1 = Complexity (config s) /\
  ipRequestCount (getAdjustedComplexity s ip now).2 !! ip = Some 1.
Proof.
  intros Hlast Hidle. unfold getAdjustedComplexity. rewrite Hlast.
  rewrite (proj2 (Z.ltb_lt _ _) Hidle). change (10 <? 0) with false.
  rewrite andb_false_r. cbn [fst snd ipRequestCount].
  by rewrite lookup_insert_eq.
Qed.

(** The state of an address after [n] calls that follow each other within
    five minutes. *)
Lemma AdjustSeq_below_threshold (ip : string) (ts : list Z) : forall (s : Server) (c last : Z),
  ipRequestCount s !! ip = Some c -> ipLastRequest s !! ip = Some last ->
  0 <= c -> c + Z.of_nat (length ts) <= 11 ->
  spaced last ts ->
  (AdjustSeq s ip ts).1 = repeat (Complexity (config s)) (length ts) /\
  ipRequestCount (AdjustSeq s ip ts).2 !! ip = Some (c + Z.of_nat (length ts)) /\
  config (AdjustSeq s ip ts).2 = config s.
Proof.
  induction ts as [|t ts IH]; intros s c last Hc Hl Hc0 Hlen Hsp.
  - cbn. rewrite Z.add_0_r. done.
  - destruct Hsp as [Ht Hsp]. cbn [length] in Hlen. cbn [AdjustSeq].
    pose proof (base_complexity_below_threshold s ip t) as Hone. cbv zeta in Hone.
    rewrite Hl, Hc in Hone. rewrite (proj2 (Z.ltb_ge _ _) Ht) in Hone. cbn [default from_option id] in Hone.
    destruct Hone as (Hres & Hcount & Hlast & _ & Hcfg).
    destruct (getAdjustedComplexity s ip t) as [v s'] eqn:Hg. cbn [fst snd] in *.
    rewrite incr64_small in Hcount by (unfold MinInt64, MaxInt64; lia).
    destruct (IH s' (c + 1) t Hcount Hlast ltac:(lia) ltac:(lia) Hsp) as (Hvs & Hcnt & Hcf).
    destruct (AdjustSeq s' ip ts) as [vs s'']. cbn [fst snd length repeat] in *.
    rewrite Hres by (right; lia). rewrite Hvs, Hcf, Hcfg, Hcnt.
    repeat split; try done. f_equal. lia.
Qed.

(** X8.  The first eleven issuances of an address get the base complexity:
    for an address never seen before, up to eleven calls that follow each
    other within five minutes all return the configured complexity, and the
    stored count is the number of calls (it never decays while the address
    stays active). *)
Theorem first_eleven_at_base (s : Server) (ip : string) (t1 : Z) (ts : list Z) :
  ipRequestCount s !! ip = None -> ipLastRequest s !! ip = None ->
  (length ts <= 10)%nat -> spaced t1 ts ->
  (AdjustSeq s ip (t1 :: ts)).1 = repeat (Complexity (config s)) (S (length ts)) /\
  ipRequestCount (AdjustSeq s ip (t1 :: ts)).2 !! ip = Some (Z.of_nat (S (length ts))).
Proof.
  intros Hc Hl Hlen Hsp. cbn [AdjustSeq].
  pose proof (base_complexity_below_threshold s ip t1) as Hone. cbv zeta in Hone.
  rewrite Hl, Hc in Hone. cbn [default from_option id] in Hone.
  destruct Hone as (Hres & Hcount & Hlast & _ & Hcfg).
  destruct (getAdjustedComplexity s ip t1) as [v s'] eqn:Hg. cbn [fst snd] in *.
  change (incr64 0) with 1 in Hcount.
  destruct (AdjustSeq_below_threshold ip ts s' 1 t1 Hcount Hlast ltac:(lia) ltac:(lia) Hsp)
    as (Hvs & Hcnt & Hcf).
  destruct (AdjustSeq s' ip ts) as [vs s'']. cbn [fst snd repeat] in *.
  rewrite Hres by (by left). rewrite Hvs, Hcfg, Hcnt. split; [done|]. f_equal. lia.
Qed.

(** *** Replay guard, continued *)

(** X9.  The replay guard as a map: an identifier exists right after it is
    added and recording it again overwrites its expiry; adding one identifier
    does not change whether another exists; a sweep never adds an identifier
    and never changes the expiry of one it keeps; two sweeps are one sweep at
    the later of the two clocks, so sweeping again at the same clock changes
    nothing; an entry added with an expiry below the clock is gone at the
    next sweep. *)
Theorem replay_guard_algebra (c : ChallengeManager) (id : string) (e e' t1 t2 : Z) :
  Exists (AddChallenge c id e) id = true /\
  solvedChallenges (AddChallenge (AddChallenge c id e) id e') !! id = Some e' /\
  (forall other, other <> id -> Exists (AddChallenge c id e) other = Exists c other) /\
  (forall v, solvedChallenges (cleanupExpired c t1) !! id = Some v ->
             solvedChallenges c !! id = Some v) /\
  cleanupExpired (cleanupExpired c t1) t2
  = cleanupExpired c (if nowMillis t1 <=? nowMillis t2 then t2 else t1) /\
  cleanupExpired (cleanupExpired c t1) t1 = cleanupExpired c t1 /\
  Exists (cleanupExpired (AddChallenge c id e) t1) id = negb (e <? nowMillis t1).
Proof.
  assert (Htwice : forall a b, cleanupExpired (cleanupExpired c a) b
                               = cleanupExpired c (if nowMillis a <=? nowMillis b then b else a)).
  { intros a b. unfold cleanupExpired. cbn [solvedChallenges expireDuration]. f_equal.
    rewrite map_filter_filter. apply map_filter_ext. intros k v _. cbn.
    destruct (nowMillis a <=? nowMillis b) eqn:Hab;
      [apply Z.leb_le in Hab|apply Z.leb_gt in Hab]; lia. }
  split; [|split; [|split; [|split; [|split; [|split]]]]].
  - unfold Exists. cbn. rewrite lookup_insert_eq. by apply bool_decide_eq_true_2.
  - cbn. by rewrite lookup_insert_eq.
  - intros other Hne. unfold Exists. cbn. by rewrite lookup_insert_ne.
  - intros v. rewrite cleanupExpired_lookup.
    destruct (solvedChallenges c !! id); [|done]. by case_bool_decide.
  - apply Htwice.
  - rewrite Htwice. by rewrite Z.leb_refl.
  - unfold Exists. rewrite cleanupExpired_lookup. cbn. rewrite lookup_insert_eq.
    destruct (e <? nowMillis t1) eqn:Hlt;
      [apply Z.ltb_lt in Hlt|apply Z.ltb_ge in Hlt].
    + rewrite (bool_decide_eq_true_2 (e < nowMillis t1)) by done.
      apply bool_decide_eq_false_2. by intros [? ?].
    + rewrite (bool_decide_eq_false_2 (e < nowMillis t1)) by lia.
      by apply bool_decide_eq_true_2.
Qed.

Section VerificationMore.

Context {E : Collaborators}.

(** X10.  Replay detection looks at the [challenge] field alone: any body
    that passes the parsing steps and whose challenge identifier is in the
    replay set is answered with status 409, whatever its other fields,
    credential and clock are; the collaborator is not called and the state
    is unchanged. *)
Theorem replay_by_identifier_alone (wd : World) (apiKey : string) (r : Request) (now : Z)
    (body decodedBytes : string) (payload : gmap string JSONValue)
    (id salt base query : string) (rest : list string) (expire : Z) :
  Body r = Some body ->
  DecodeString (TrimSpace body) = Some decodedBytes ->
  Unmarshal decodedBytes = Some payload ->
  payload !! "challenge" = Some (JString id) ->
  payload !! "salt" = Some (JString salt) ->
  Split salt "?"%char = base :: query :: rest ->
  ParseInt (Get (ParseQuery query) "expires") = Some expire ->
  1 <= expire ->
  Exists (cm wd) id = true ->
  handleVerifyChallenge wd (Some apiKey) r now newWriter = (wd, Done replayWriter).
Proof.
  intros Hbody Hdec Hjson Hch Hsalt Hsplit Hexp Hpos Hin.
  unfold handleVerifyChallenge.
  rewrite Hbody, Hdec, Hjson, Hch, Hsalt, Hsplit, Hexp. cbn [assertString].
  rewrite (proj2 (Z.ltb_ge _ _)) by lia. by rewrite Hin.
Qed.

(** X11.  A refused solution is not remembered: after a well-formed payload
    that the collaborator refuses, the replay set is as before, so the same
    body posted again reaches the collaborator again; when it is refused
    again, failed has been incremented twice and two calls are on record. *)
Theorem refused_solution_can_be_resubmitted (wd : World) (apiKey : string) (r : Request)
    (now now' : Z) (body decodedBytes : string) (payload : gmap string JSONValue)
    (id salt base query : string) (rest : list string) (expire : Z) :
  Body r = Some body ->
  DecodeString (TrimSpace body) = Some decodedBytes ->
  Unmarshal decodedBytes = Some payload ->
  payload !! "challenge" = Some (JString id) ->
  payload !! "salt" = Some (JString salt) ->
  Split salt "?"%char = base :: query :: rest ->
  ParseInt (Get (ParseQuery query) "expires") = Some expire ->
  1 <= expire ->
  Exists (cm wd) id = false ->
  VerifySolution (TrimSpace body) (HMACKey (config (server wd))) now = Ok false ->
  VerifySolution (TrimSpace body) (HMACKey (config (server wd))) now' = Ok false ->
  let first := handleVerifyChallenge wd (Some apiKey) r now newWriter in
  let second := handleVerifyChallenge first.1 (Some apiKey) r now' newWriter in
  first.2 = Done failedWriter /\ cm first.1 = cm wd /\
  second.2 = Done failedWriter /\ cm second.1 = cm wd /\
  statsOf second.1 !! apiKey
  = Some (failedOne (failedOne (default zeroStats (statsOf wd !! apiKey)))) /\
  powLog second.1
  = CallVerify (TrimSpace body) (HMACKey (config (server wd))) (Ok false)
      :: CallVerify (TrimSpace body) (HMACKey (config (server wd))) (Ok false)
      :: powLog wd.
Proof.
  intros Hbody Hdec Hjson Hch Hsalt Hsplit Hexp Hpos Hfresh Hv Hv'.
  assert (Hlt : (expire <? 1) = false) by (apply Z.ltb_ge; lia).
  assert (Hone : forall w t,
             Exists (cm w) id = false ->
             VerifySolution (TrimSpace body) (HMACKey (config (server w))) t = Ok false ->
             handleVerifyChallenge w (Some apiKey) r t newWriter
             = ({| server := setServerStats (server w)
                               (<[apiKey := failedOne (default zeroStats (statsOf w !! apiKey))]>
                                  (statsOf w));
                   rateLimiter := rateLimiter w; cm := cm w;
                   powLog := CallVerify (TrimSpace body) (HMACKey (config (server w))) (Ok false)
                               :: powLog w |},
                Done failedWriter)).
  { intros w t Hf Hvt. unfold handleVerifyChallenge.
    rewrite Hbody, Hdec, Hjson, Hch, Hsalt, Hsplit, Hexp, Hlt. cbn [assertString].
    rewrite Hf, Hvt. reflexivity. }
  cbv zeta. rewrite (Hone wd now Hfresh Hv). cbn [fst snd].
  rewrite Hone; [|done|done].
  cbn [fst snd cm powLog]. unfold statsOf. cbn.
  rewrite !lookup_insert_eq. done.
Qed.

(** *** Configuration and state frames *)

(** Serving a request never changes the configuration apart from the stats. *)
Lemma ServeHTTP_config (wd : World) (r : Request) (now rnd : Z) :
  let c := config (server wd) in
  let c' := config (server (ServeHTTP wd r now rnd).1) in
  HMACKey c' = HMACKey c /\ Algorithm c' = Algorithm c /\ Complexity c' = Complexity c /\
  ExpireTime c' = ExpireTime c /\ APIKeys c' = APIKeys c /\
  expireDuration (cm (ServeHTTP wd r now rnd).1) = expireDuration (cm wd).
Proof.
  unfold ServeHTTP, RateLimitMiddleware, APIKeyMiddleware,
    handleVerifyChallenge, handleGetChallenge, getAdjustedComplexity.
  cbv zeta. repeat case_match; simplify_eq; cbn; done.
Qed.

(** Stats entries are created for registered keys only. *)
Lemma ServeHTTP_stats_keys (wd : World) (r : Request) (now rnd : Z) (key : string) :
  is_Some (statsOf (ServeHTTP wd r now rnd).1 !! key) ->
  is_Some (statsOf wd !! key) \/ is_Some (APIKeys (config (server wd)) !! key).
Proof.
  unfold ServeHTTP, RateLimitMiddleware, APIKeyMiddleware,
    handleVerifyChallenge, handleGetChallenge, getAdjustedComplexity, statsOf.
  cbv zeta. repeat case_match; simplify_eq; cbn; try (by left).
  all: intros Hin; destruct (decide (Get (Query r) "apiKey" = key)) as [<-|Hne];
    [right; eauto | left; by rewrite lookup_insert_ne in Hin].
Qed.

(** X12.  Through any run of requests and sweeps the configuration other
    than the stats is what it was at the start (HMAC key, algorithm, base
    complexity, expiry, credential registry, sweep period), and a stats entry
    exists only for a key that had one at the start or is a registered
    credential. *)
Theorem configuration_is_fixed (es : list Event) (wd : World) :
  let c := config (server wd) in
  let c' := config (server (run wd es)) in
  HMACKey c' = HMACKey c /\ Algorithm c' = Algorithm c /\ Complexity c' = Complexity c /\
  ExpireTime c' = ExpireTime c /\ APIKeys c' = APIKeys c /\
  expireDuration (cm (run wd es)) = expireDuration (cm wd) /\
  (forall key, is_Some (statsOf (run wd es) !! key) ->
               is_Some (statsOf wd !! key) \/ is_Some (APIKeys c !! key)).
Proof.
  cbv zeta. revert wd. induction es as [|e es IH]; intros wd.
  - cbn. repeat split; try done. by left.
  - change (run wd (e :: es)) with (run (step wd e) es). specialize (IH (step wd e)).
    destruct IH as (H1 & H2 & H3 & H4 & H5 & H6 & H7).
    assert (Hstep : let c := config (server wd) in
                    let c' := config (server (step wd e)) in
                    HMACKey c' = HMACKey c /\ Algorithm c' = Algorithm c /\
                    Complexity c' = Complexity c /\ ExpireTime c' = ExpireTime c /\
                    APIKeys c' = APIKeys c /\
                    expireDuration (cm (step wd e)) = expireDuration (cm wd)).
    { destruct e as [r now rnd|now]; cbn [step]; [apply ServeHTTP_config|done]. }
    cbv zeta in Hstep. destruct Hstep as (G1 & G2 & G3 & G4 & G5 & G6).
    rewrite H1, H2, H3, H4, H5, H6, G1, G2, G3, G4, G5, G6.
    repeat split; try done.
    intros key Hin. destruct (H7 key Hin) as [Hs|Hk].
    + destruct e as [r now rnd|now]; cbn [step] in Hs; [|by left].
      exact (ServeHTTP_stats_keys _ _ _ _ _ Hs).
    + right. by rewrite <- G5.
Qed.


End VerificationMore.

(** *** Issuance *)

Section Issuance.

Context {E : Collaborators}.

(** X14.  The issuance handler calls the collaborator once, with the
    configured algorithm and HMAC key, the adjusted complexity of the client
    address and an expiry of the clock plus the configured duration (five
    minutes when the duration does not parse); it never touches the replay
    set.  When the collaborator fails the answer is status 500 with its
    error text and the stats are unchanged, yet the request has been counted
    by the complexity controller.  When it succeeds the challenge is
    answered verbatim and the entry of the API key has issued and the
    per-address count of the client incremented, starting from zero when the
    key had no stats entry. *)
Theorem issuance_effects (wd : World) (apiKey : string) (r : Request) (now rnd : Z) :
  let s := server wd in
  let ip := GetRealIP r in
  let options :=
    {| opt_Algorithm := Algorithm (config s);
       opt_MaxNumber := (getAdjustedComplexity s ip now).1;
       opt_HMACKey := HMACKey (config s);
       opt_Expires := now + default (5 * Minute) (ParseDuration (ExpireTime (config s))) |} in
  let res := handleGetChallenge wd (Some apiKey) r now rnd newWriter in
  powLog res.1 = CallCreate options :: powLog wd /\
  cm res.1 = cm wd /\
  ipRequestCount (server res.1) = ipRequestCount (getAdjustedComplexity s ip now).2 /\
  (forall e, CreateChallenge options rnd = Err e ->
     statsOf res.1 = statsOf wd /\
     exists w, res.2 = Done w /\ StatusCode w = StatusInternalServerError /\
               Message <$> responses w = [ "Failed to create challenge: " ++ e ]) /\
  (forall challenge, CreateChallenge options rnd = Ok challenge ->
     res.2 = Done (challengeWriter challenge) /\
     statsOf res.1
     = <[apiKey := issuedOne ip (default zeroStats (statsOf wd !! apiKey))]> (statsOf wd) /\
     (statsOf wd !! apiKey = None ->
      statsOf res.1 !! apiKey
      = Some {| TotalChallenges := 1; SolvedChallenges := 0; FailedChallenges := 0;
                IPThrottleCount := {[ ip := 1 ]} |})).
Proof.
  cbv zeta. unfold handleGetChallenge.
  assert (Hcfg : config (getAdjustedComplexity (server wd) (GetRealIP r) now).2
                 = config (server wd)).
  { unfold getAdjustedComplexity. by destruct (_ && _). }
  destruct (getAdjustedComplexity (server wd) (GetRealIP r) now) as [complexity s'] eqn:Hg.
  cbn [fst snd] in *. cbv beta iota zeta. rewrite !Hcfg. unfold Add.
  destruct (CreateChallenge _ rnd) as [challenge|e] eqn:Hcreate; cbn [fst snd powLog cm server].
  - split; [done|]. split; [done|]. split; [done|]. split; [intros ? [=]|].
    intros ? [= <-]. split; [done|].
    unfold statsOf at 1 2. cbn. rewrite ?Hcfg. split; [done|].
    intros Hnone. unfold statsOf in Hnone. rewrite Hnone. cbn.
    rewrite lookup_insert_eq. f_equal.
  - split; [done|]. split; [done|]. split; [done|]. split; [|intros ? [=]].
    intros ? [= <-]. unfold statsOf. cbn [fst snd server]. rewrite ?Hcfg. split; [done|].
    eexists. split; [done|]. split; reflexivity.
Qed.

End Issuance.

(** *** The root page *)

Lemma wrap64_add_l (a b : Z) : wrap64 (wrap64 a + b) = wrap64 (a + b).
Proof.
  unfold wrap64.
  replace ((a + 2 ^ 63) mod 2 ^ 64 - 2 ^ 63 + b + 2 ^ 63)
    with ((a + 2 ^ 63) mod 2 ^ 64 + b) by lia.
  rewrite Z.add_mod_idemp_l by lia. f_equal. f_equal. lia.
Qed.

Lemma wrap64_idemp (a : Z) : wrap64 (wrap64 a) = wrap64 a.
Proof.
  transitivity (wrap64 (wrap64 a + 0)); [f_equal; lia|].
  rewrite wrap64_add_l. f_equal. lia.
Qed.

Lemma sumZ_permutation (l l' : list Z) : l ≡ₚ l' -> sumZ l = sumZ l'.
Proof.
  induction 1 as [|x l l' _ IH|x y l|l l' l'' _ IH1 _ IH2]; unfold sumZ in *; cbn; lia.
Qed.

(** The running total of the page over a list of entries. *)
Lemma page_total_foldr (f : StatsEntry -> Z) (l : list (string * StatsEntry)) :
  wrap64 (foldr (uncurry (fun (_ : string) st acc => wrap64 (acc + f st))) 0 l)
  = wrap64 (sumZ (f <$> l.*2)).
Proof.
  induction l as [|[k st] l IH]; [done|].
  cbn [foldr uncurry fmap list_fmap snd]. rewrite wrap64_idemp.
  rewrite <- wrap64_add_l, IH, wrap64_add_l.
  f_equal. unfold sumZ. cbn. lia.
Qed.

(** X15.  The totals of the root page are the sums, modulo 2^64, of the
    counters of all stats entries, in whatever order the entries are
    visited; the page is answered with status 200 as HTML. *)
Theorem root_page_totals (s : Server) (entries : list StatsEntry) :
  entries ≡ₚ (map_to_list (Stats (config s))).*2 ->
  handleRoot s newWriter
  = {| ContentType := "text/html; charset=utf-8"; wroteHeader := Some StatusOK;
       written := [ PPage (wrap64 (sumZ (TotalChallenges <$> entries)))
                          (wrap64 (sumZ (SolvedChallenges <$> entries)))
                          (wrap64 (sumZ (FailedChallenges <$> entries))) ] |}.
Proof.
  intros Hperm. unfold handleRoot. cbv zeta.
  assert (Hsum : forall f : StatsEntry -> Z,
             map_fold (fun (_ : string) st acc => wrap64 (acc + f st)) 0 (Stats (config s))
             = wrap64 (sumZ (f <$> entries))).
  { intros f. rewrite map_fold_foldr.
    assert (Hw : forall l : list (string * StatsEntry),
               foldr (uncurry (fun (_ : string) st acc => wrap64 (acc + f st))) 0 l
               = wrap64 (foldr (uncurry (fun (_ : string) st acc => wrap64 (acc + f st))) 0 l)).
    { intros [|[k st] l]; [reflexivity|]. cbn [foldr uncurry]. by rewrite wrap64_idemp. }
    rewrite Hw, page_total_foldr. f_equal. apply sumZ_permutation.
    by rewrite Hperm. }
  rewrite !Hsum. reflexivity.
Qed.

(** *** API keys *)

Lemma unhex_hexDigit (n : N) : (n < 16)%N -> unhexDigit (hexDigit n) = Some n.
Proof.
  intros Hn. destruct n as [|p]; [reflexivity|].
  do 4 (destruct p as [p|p|]; try reflexivity); lia.
Qed.

Lemma decode_encode_byte (b : Byte.byte) :
  Byte.of_N (16 * (Byte.to_N b / 16) + Byte.to_N b mod 16) = Some b.
Proof.
  rewrite <- N.div_mod by done. apply Byte.of_to_N.
Qed.

(** Decoding undoes encoding. *)
Lemma decodeLowerHex_EncodeToString (bs : list Byte.byte) :
  decodeLowerHex (EncodeToString bs) = Some bs.
Proof.
  induction bs as [|b bs IH]; [reflexivity|].
  cbn [EncodeToString decodeLowerHex].
  pose proof (Byte.to_N_bounded b) as Hb.
  rewrite !unhex_hexDigit, IH, decode_encode_byte; [done| |].
  - apply N.mod_lt. done.
  - apply N.Div0.div_lt_upper_bound. lia.
Qed.

Lemma length_EncodeToString (bs : list Byte.byte) :
  String.length (EncodeToString bs) = (2 * length bs)%nat.
Proof. induction bs as [|b bs IH]; cbn [EncodeToString String.length length]; lia. Qed.

(** Whatever follows it, the prefix is recognised. *)
Lemma vrty_prefixed (s : string) : HasPrefix ("vrty_" ++ s) "vrty_" = true.
Proof.
  unfold HasPrefix.
  change ("vrty_" ++ s)
    with (String "v" (String "r" (String "t" (String "y" (String "_" s))))).
  cbn [String.prefix]. repeat (destruct (ascii_dec _ _) as [_|Hne]; [|done]).
  by destruct s.
Qed.

(** X16.  [GenerateAPIKey] passes an error of the random source on; from 16
    random bytes it gives the prefix [vrty_] followed by their 32 lower-case
    hexadecimal digits, 37 characters in all; the bytes can be read back from
    the key, so different bytes give different keys; and the key passes the
    two format checks of the API-key middleware: with that key in the query,
    a request is answered "Invalid API key" (401) exactly because the key is
    not registered, never for its format. *)
Theorem generated_key_is_well_formed (bytes : list Byte.byte) :
  length bytes = 16%nat ->
  let key := "vrty_" ++ EncodeToString bytes in
  GenerateAPIKey (Ok bytes) = Ok key /\
  (forall e, GenerateAPIKey (Err e) = Err e) /\
  String.length key = 37%nat /\
  decodeLowerHex (String.substring 5 32 key) = Some bytes /\
  (forall bytes', GenerateAPIKey (Ok bytes') = Ok key -> bytes' = bytes) /\
  key <> EmptyString /\ HasPrefix key "vrty_" = true /\
  (forall wd r w next,
      Get (Query r) "apiKey" = key ->
      APIKeys (config (server wd)) !! key = None ->
      APIKeyMiddleware wd r w next
      = (wd, Done (writeErrorResponse w "Invalid API key" StatusUnauthorized))).
Proof.
  intros Hlen. cbv zeta.
  assert (Hsub : String.substring 5 32 ("vrty_" ++ EncodeToString bytes)
                 = EncodeToString bytes).
  { change (String.substring 5 32 ("vrty_" ++ EncodeToString bytes))
      with (String.substring 0 32 (EncodeToString bytes)).
    pose proof (length_EncodeToString bytes) as Hl. rewrite Hlen in Hl.
    change (2 * 16)%nat with 32%nat in Hl. rewrite <- Hl.
    generalize (EncodeToString bytes). intros s. induction s as [|a s IH]; [done|].
    cbn [String.length String.substring]. by rewrite IH. }
  split; [done|]. split; [done|]. split; [|split; [|split; [|split; [|split]]]].
  - change (String.length ("vrty_" ++ EncodeToString bytes))
      with (5 + String.length (EncodeToString bytes))%nat.
    rewrite length_EncodeToString, Hlen. reflexivity.
  - rewrite Hsub. apply decodeLowerHex_EncodeToString.
  - intros bytes' Heq. unfold GenerateAPIKey in Heq.
    change ("vrty_" ++ EncodeToString bytes')
      with (String "v" (String "r" (String "t" (String "y" (String "_"
              (EncodeToString bytes')))))) in Heq.
    change ("vrty_" ++ EncodeToString bytes)
      with (String "v" (String "r" (String "t" (String "y" (String "_"
              (EncodeToString bytes)))))) in Heq.
    injection Heq as Heq.
    pose proof (decodeLowerHex_EncodeToString bytes') as H1.
    rewrite Heq, decodeLowerHex_EncodeToString in H1. congruence.
  - done.
  - apply vrty_prefixed.
  - intros wd r w next Hkey Hreg. unfold APIKeyMiddleware. rewrite Hkey, Hreg.
    rewrite vrty_prefixed. reflexivity.
Qed.

(** *** Client address *)

Section ClientAddress.

Context {E : Collaborators}.

(** X17.  The X-Forwarded-For header alone chooses the rate-limit window:
    when the header is not empty, the client address is its first
    comma-separated entry with surrounding white space removed, whatever the
    peer address and the X-Real-IP header are; so a request whose header
    names an address the rate limiter has no entry for is admitted and opens
    a new window for that address, whatever the count of any other address
    is. *)
Theorem forwarded_for_chooses_window (wd : World) (r : Request) (v first : string)
    (rest : list string) (now : Z) (w : ResponseWriter) (next : World -> World * Outcome) :
  v <> EmptyString ->
  Split v ","%char = first :: rest ->
  ipLimits (rateLimiter wd) !! TrimSpace first = None ->
  GetRealIP (withForwardedFor r v) = TrimSpace first /\
  RateLimitMiddleware wd (withForwardedFor r v) now w next
  = next {| server := server wd;
            rateLimiter :=
              {| ipLimits :=
                   <[TrimSpace first := {| Count := 1; ResetAt := now + RequestLimitWindow |}]>
                     (ipLimits (rateLimiter wd)) |};
            cm := cm wd; powLog := powLog wd |}.
Proof.
  intros Hv Hsplit Hfresh.
  assert (Hip : GetRealIP (withForwardedFor r v) = TrimSpace first).
  { unfold GetRealIP, withForwardedFor, Get. cbn [Header].
    rewrite lookup_insert_eq. rewrite (proj2 (String.eqb_neq _ _) Hv). cbn [negb].
    by rewrite Hsplit. }
  split; [done|]. unfold RateLimitMiddleware. rewrite Hip.
  rewrite LimitByIP_fresh by done. reflexivity.
Qed.

End ClientAddress.

(** *** Start-up *)

Section StartupFacts.

Context {E : Collaborators}.

(** X18.  A configuration that [validateConfig] accepts names one of the two
    algorithms, has a positive complexity and an expiry that parses, so
    [NewChallengeManager] does not panic on it and returns an empty replay
    set with the parsed period.  Validation does not look at the sign of the
    period: the sweep loop panics when the period is zero or negative, and
    otherwise applies [cleanupExpired] at every tick. *)
Theorem validated_configuration_starts (c : ServerConfig) :
  validateConfig c = Ok tt ->
  (Algorithm c = "SHA-256" \/ Algorithm c = "SHA-512") /\
  0 < Complexity c /\
  exists period,
    ParseDuration (ExpireTime c) = Some period /\
    NewChallengeManager (ExpireTime c)
    = Returned {| solvedChallenges := ∅; expireDuration := period |} /\
    forall ticks,
      cleanupLoop {| solvedChallenges := ∅; expireDuration := period |} ticks
      = if period <=? 0 then Panicked "non-positive interval for NewTicker"
        else Returned {| solvedChallenges := ∅; expireDuration := period |}.
Proof.
  unfold validateConfig, NewChallengeManager, cleanupLoop.
  destruct (String.eqb (Algorithm c) "SHA-256") eqn:H256;
    destruct (String.eqb (Algorithm c) "SHA-512") eqn:H512; cbn [negb andb]; try done.
  all: destruct (ParseDuration (ExpireTime c)) as [period|]; [|done].
  all: destruct (Complexity c <=? 0) eqn:Hc; [done|]; intros _.
  all: apply Z.leb_gt in Hc.
  all: split; [first [left; by apply String.eqb_eq | right; by apply String.eqb_eq]|].
  all: split; [done|]; exists period; split; [done|]; split; [done|].
  all: intros ticks; cbn [expireDuration]; destruct (period <=? 0); [done|]; f_equal.
  all: induction ticks as [|t ticks IH]; [done|]; cbn [fold_left].
  all: replace (cleanupExpired {| solvedChallenges := ∅; expireDuration := period |} t)
         with {| solvedChallenges := ∅; expireDuration := period |}; [done|].
  all: unfold cleanupExpired; cbn [solvedChallenges expireDuration]; f_equal;
    symmetry; apply map_filter_empty.
Qed.

End StartupFacts.

(** *** The query part of the salt *)

(** A piece free of the separator, followed by the separator. *)
Lemma Split_piece (a b : string) (sep : ascii) :
  Split a sep = [a] -> Split (a ++ String sep b) sep = a :: Split b sep.
Proof.
  induction a as [|x a IH]; intros Ha.
  - change (EmptyString ++ String sep b) with (String sep b). cbn [Split].
    by rewrite Ascii.eqb_refl.
  - change (String x a ++ String sep b) with (String x (a ++ String sep b)).
    cbn [Split] in Ha |- *. destruct (Ascii.eqb x sep); [done|].
    destruct (Split a sep) as [|h t] eqn:Hs.
    + destruct a; cbn in Hs; [done|]. repeat case_match; done.
    + injection Ha as -> ->. by rewrite IH.
Qed.

Section SaltQuery.

Context {E : Collaborators}.

(** X19.  Only the text between the first and the second question mark of
    the salt is read as the query: when the salt is [base?query?tail] and
    the query carries no integer [expires], the request is answered with
    status 400 "Invalid challenge format", whatever [tail] holds (an
    [expires] parameter placed there is not seen); the state is unchanged. *)
Theorem salt_query_ends_at_second_mark (wd : World) (apiKey : string) (r : Request)
    (now : Z) (body decodedBytes : string) (payload : gmap string JSONValue)
    (id base query tail : string) :
  Body r = Some body ->
  DecodeString (TrimSpace body) = Some decodedBytes ->
  Unmarshal decodedBytes = Some payload ->
  payload !! "challenge" = Some (JString id) ->
  payload !! "salt" = Some (JString (base ++ String "?" (query ++ String "?" tail))) ->
  Split base "?"%char = [base] -> Split query "?"%char = [query] ->
  ParseInt (Get (ParseQuery query) "expires") = None ->
  handleVerifyChallenge wd (Some apiKey) r now newWriter
  = (wd, Done (writeErrorResponse newWriter "Invalid challenge format" StatusBadRequest)).
Proof.
  intros Hbody Hdec Hjson Hch Hsalt Hb Hq Hexp. unfold handleVerifyChallenge.
  rewrite Hbody, Hdec, Hjson, Hch, Hsalt. cbn [assertString].
  rewrite (Split_piece base _ _ Hb), (Split_piece query _ _ Hq), Hexp. reflexivity.
Qed.

End SaltQuery.

(** *** The further theorems at concrete requests *)

(** X2 at the entry a first request leaves. *)
Lemma rate_count_within_ceiling_witness :
  1 <= Count {| Count := 1; ResetAt := Scenario.t0 + RequestLimitWindow |} <= 100.
Proof.
  apply (rate_count_within_ceiling (E := Sample.env) Scenario.cfg (5 * Minute)
           [EvRequest Scenario.anonymousRequest Scenario.t0 0] Scenario.ip).
  vm_compute. reflexivity.
Defined.

(** X3 at an address that is at the ceiling. *)
Lemma rate_limited_request_changes_nothing_witness :
  (ServeHTTP (E := Sample.env) Cases.fullWorld Scenario.issueRequest
     (Scenario.t0 + Second) 0).1 = Cases.fullWorld.
Proof.
  refine (proj1 (rate_limited_request_changes_nothing (E := Sample.env) Cases.fullWorld
                   Scenario.issueRequest (Scenario.t0 + Second) 0
                   (writeErrorResponse newWriter "Rate limit exceeded" StatusTooManyRequests)
                   _ _)).
  - vm_compute. reflexivity.
  - reflexivity.
Defined.

(** X5 with the second hundred one nanosecond after the first. *)
Lemma boundary_burst_passes_witness :
  (LimitSeq Scenario.ip ∅
     ((Scenario.t0 :: repeat (Scenario.t0 + RequestLimitWindow) 99)
      ++ (Scenario.t0 + RequestLimitWindow + 1
          :: repeat (Scenario.t0 + RequestLimitWindow + 1) 99))%list).1
  = repeat true 200.
Proof.
  apply (boundary_burst_passes Scenario.ip ∅ Scenario.t0
           (Scenario.t0 + RequestLimitWindow + 1)).
  - apply lookup_empty.
  - reflexivity.
  - apply Forall_forall. intros t Ht. apply list_elem_of_In, repeat_spec in Ht. subst t.
    vm_compute. discriminate.
  - vm_compute. reflexivity.
  - reflexivity.
  - apply Forall_forall. intros t Ht. apply list_elem_of_In, repeat_spec in Ht. subst t.
    vm_compute. discriminate.
Defined.

(** X7 at an address with 25 recent requests, six minutes later. *)
Lemma idle_address_starts_over_witness :
  (getAdjustedComplexity (Scenario.busyServer 50000) Scenario.ip
     (Scenario.t0 + 6 * Minute)).1 = 50000 /\
  ipRequestCount (getAdjustedComplexity (Scenario.busyServer 50000) Scenario.ip
                    (Scenario.t0 + 6 * Minute)).2 !! Scenario.ip = Some 1.
Proof.
  apply (idle_address_starts_over (Scenario.busyServer 50000) Scenario.ip
           (Scenario.t0 + 6 * Minute) Scenario.t0).
  - vm_compute. reflexivity.
  - vm_compute. reflexivity.
Defined.

(** X8 at eleven issuances one minute apart. *)
Lemma first_eleven_at_base_witness :
  (AdjustSeq (server Scenario.world0) Scenario.ip
     (Scenario.t0 :: map (fun k => Scenario.t0 + Z.of_nat k * Minute) (seq 1 10))).1
  = repeat 50000 11.
Proof.
  refine (proj1 (first_eleven_at_base (server Scenario.world0) Scenario.ip Scenario.t0
                   (map (fun k => Scenario.t0 + Z.of_nat k * Minute) (seq 1 10)) _ _ _ _)).
  - apply lookup_empty.
  - apply lookup_empty.
  - cbn. lia.
  - cbn. repeat split; vm_compute; discriminate.
Defined.

(** X10 at the forged solution, posted once the valid one is recorded. *)
Lemma replay_by_identifier_alone_witness :
  Scenario.verify Scenario.world1 (Some Scenario.apiKey)
    (Scenario.verifyRequest Scenario.forgedPayload) Scenario.t0 newWriter
  = (Scenario.world1, Done replayWriter).
Proof.
  unshelve eapply (replay_by_identifier_alone (E := Sample.env) Scenario.world1
           Scenario.apiKey (Scenario.verifyRequest Scenario.forgedPayload) Scenario.t0
           Scenario.forgedPayload _ _ "c0ffee" "abc?expires=4102444800" "abc"
           "expires=4102444800" [] 4102444800);
    try (vm_compute; reflexivity).
  vm_compute. discriminate.
Defined.

(** X11 at the forged solution, posted twice. *)
Lemma refused_solution_can_be_resubmitted_witness :
  FailedChallenges
    <$> statsOf (Scenario.verify
                   (Scenario.verify Scenario.world0 (Some Scenario.apiKey)
                      (Scenario.verifyRequest Scenario.forgedPayload) Scenario.t0 newWriter).1
                   (Some Scenario.apiKey)
                   (Scenario.verifyRequest Scenario.forgedPayload) (Scenario.t0 + Second)
                   newWriter).1 !! Scenario.apiKey
  = Some 2.
Proof.
  unshelve epose proof (refused_solution_can_be_resubmitted (E := Sample.env) Scenario.world0
           Scenario.apiKey (Scenario.verifyRequest Scenario.forgedPayload)
           Scenario.t0 (Scenario.t0 + Second)
           Scenario.forgedPayload _ _ "c0ffee" "abc?expires=4102444800" "abc"
           "expires=4102444800" [] 4102444800 _ _ _ _ _ _ _ _ _ _ _) as H;
    [try (vm_compute; reflexivity) .. | ].
  - vm_compute. discriminate.
  - cbv zeta in H. destruct H as (_ & _ & _ & _ & Hstats & _).
    unfold Scenario.verify. rewrite Hstats. vm_compute. reflexivity.
Defined.

(** X15 at a registry with one credential. *)
Lemma root_page_totals_witness :
  handleRoot (server Scenario.world0) newWriter
  = {| ContentType := "text/html; charset=utf-8"; wroteHeader := Some StatusOK;
       written := [ PPage (wrap64 (sumZ (TotalChallenges <$> [zeroStats])))
                          (wrap64 (sumZ (SolvedChallenges <$> [zeroStats])))
                          (wrap64 (sumZ (FailedChallenges <$> [zeroStats]))) ] |}.
Proof.
  apply (root_page_totals (server Scenario.world0) [zeroStats]).
  unfold Scenario.world0, initWorld, Scenario.cfg. cbn [server config Stats].
  rewrite map_to_list_singleton. reflexivity.
Defined.

(** X16 at sixteen bytes. *)
Lemma generated_key_is_well_formed_witness :
  GenerateAPIKey (Ok Cases.sixteenBytes) = Ok Scenario.apiKey.
Proof.
  exact (proj1 (generated_key_is_well_formed Cases.sixteenBytes eq_refl)).
Defined.

(** X17 at a request whose peer is at the ceiling. *)
Lemma forwarded_for_chooses_window_witness :
  GetRealIP (E := Sample.env) (withForwardedFor Scenario.issueRequest Cases.forwarded)
  = "198.51.100.9".
Proof.
  refine (proj1 (forwarded_for_chooses_window (E := Sample.env) Cases.fullWorld
                   Scenario.issueRequest Cases.forwarded "198.51.100.9" [" 10.0.0.1"]
                   Scenario.t0 newWriter (fun wd => (wd, Panic EmptyString)) _ _ _)).
  - discriminate.
  - vm_compute. reflexivity.
  - vm_compute. reflexivity.
Defined.

(** X18 at an expiry of zero seconds: accepted, and the sweep loop panics. *)
Lemma validated_configuration_starts_witness :
  exists period,
    ParseDuration (Collaborators := Sample.env) (ExpireTime Cases.zeroPeriodCfg) = Some period /\
    NewChallengeManager (E := Sample.env) (ExpireTime Cases.zeroPeriodCfg)
    = Returned {| solvedChallenges := ∅; expireDuration := period |} /\
    forall ticks,
      cleanupLoop {| solvedChallenges := ∅; expireDuration := period |} ticks
      = if period <=? 0 then Panicked "non-positive interval for NewTicker"
        else Returned {| solvedChallenges := ∅; expireDuration := period |}.
Proof.
  refine (proj2 (proj2 (validated_configuration_starts (E := Sample.env)
                          Cases.zeroPeriodCfg _))).
  vm_compute. reflexivity.
Defined.

(** X19 at a salt whose expiry stands after the second question mark. *)
Lemma salt_query_ends_at_second_mark_witness :
  Scenario.verify Scenario.world0 (Some Scenario.apiKey)
    (Scenario.verifyRequest Cases.twoMarksPayload) Scenario.t0 newWriter
  = (Scenario.world0,
     Done (writeErrorResponse newWriter "Invalid challenge format" StatusBadRequest)).
Proof.
  unshelve eapply (salt_query_ends_at_second_mark (E := Sample.env) Scenario.world0
           Scenario.apiKey (Scenario.verifyRequest Cases.twoMarksPayload) Scenario.t0
           Cases.twoMarksPayload _ _ "c0ffee" "abc" "x=1" "expires=4102444800");
    try (vm_compute; reflexivity).
Defined.

(** *** Calls to the collaborator *)

Section CollaboratorCalls.

Context {E : Collaborators}.

(** X20.  One request costs at most one call to the proof-of-work
    collaborator, and only after admission.  The gate passes a request
    exactly when [APIKeyMiddleware] hands it to the handler, which is exactly
    when the credential is non-empty, has the [vrty_] prefix and is
    registered, and the Origin header is non-empty and is one of the
    registered origins or faces the wildcard.  When the record of calls
    grows, it grows by exactly one call, the request is for one of the two
    API routes, the rate limiter admitted it and it passed the gate.  A
    request answered with status 429, 401 or 403, a request the rate
    limiter or the gate stops, and a request for the root page never reach
    the collaborator; an issuance request that is let through always
    does. *)
Theorem collaborator_called_after_admission (wd : World) (r : Request) (now rnd : Z) :
  let res := ServeHTTP wd r now rnd in
  let key := Get (Query r) "apiKey" in
  let origin := Get (Header r) "Origin" in
  let rateAdmitted :=
    (LimitByIP (GetRealIP r) MaxRequestsPerIP RequestLimitWindow
       (ipLimits (rateLimiter wd)) now).1 in
  (passesGate wd r = true <->
     forall w next, APIKeyMiddleware wd r w next = next (Some key)) /\
  (passesGate wd r = true <->
     key <> EmptyString /\ HasPrefix key "vrty_" = true /\
     exists allowedOrigins,
       APIKeys (config (server wd)) !! key = Some allowedOrigins /\
       origin <> EmptyString /\ (origin ∈ allowedOrigins \/ "*" ∈ allowedOrigins)) /\
  (powLog res.1 = powLog wd \/
   (exists call, powLog res.1 = call :: powLog wd) /\
   route r <> RouteRoot /\ rateAdmitted = true /\ passesGate wd r = true) /\
  (forall w, res.2 = Done w ->
     StatusCode w = StatusTooManyRequests \/ StatusCode w = StatusUnauthorized \/
     StatusCode w = StatusForbidden ->
     powLog res.1 = powLog wd) /\
  (rateAdmitted = false \/ route r = RouteRoot \/ passesGate wd r = false ->
   powLog res.1 = powLog wd) /\
  (route r = RouteGetChallenge -> rateAdmitted = true -> passesGate wd r = true ->
   exists options, powLog res.1 = CallCreate options :: powLog wd).
Proof.
  cbv zeta.
  change (LimitByIP (GetRealIP r) MaxRequestsPerIP RequestLimitWindow
            (ipLimits (rateLimiter wd)) now).1
    with (rateAdmits wd r now).
  split.
  { split.
    - intros Hg w next.
      destruct (APIKeyMiddleware_gate wd wd r w next eq_refl) as [[_ ?]|[? _]]; congruence.
    - intros Hall. specialize (Hall newWriter (fun _ => (wd, Panic EmptyString))).
      destruct (APIKeyMiddleware_gate wd wd r newWriter (fun _ => (wd, Panic EmptyString))
                  eq_refl) as [[? _]|(_ & msg & st & _ & Hrej)]; [done|congruence]. }
  split; [apply passesGate_spec|].
  destruct (ServeHTTP_routes wd r now rnd)
    as [(Hwhy & w & Hres & Hst)|[(Hlim & Hroute & Hres)|
        [(Hlim & Hg & Hroute & Hres)|(Hlim & Hg & Hroute & Hres)]]];
    rewrite Hres; clear Hres.
  - cbn [fst snd]. change (powLog (counted wd r now)) with (powLog wd).
    split_and!; try done; try (by left).
    intros ? ? ?. destruct Hwhy as [?|[? ?]]; congruence.
  - cbn [fst snd]. change (powLog (counted wd r now)) with (powLog wd).
    split_and!; try done; try (by left).
    intros ? ? ?. congruence.
  - pose proof (handleGetChallenge_cases (counted wd r now) (Get (Query r) "apiKey")
                  r now rnd) as H.
    cbv zeta in H. change (server (counted wd r now)) with (server wd) in H.
    change (powLog (counted wd r now)) with (powLog wd) in H.
    destruct H as (Hlog & _ & _ & _ & _ & H).
    split_and!.
    + right. rewrite Hlog, Hroute. split_and!; eauto.
    + intros w Hd Hs. exfalso. destruct (CreateChallenge _ rnd) as [c|e].
      * destruct H as [Hc _]. rewrite Hc in Hd. simplify_eq.
        destruct Hs as [?|[?|?]]; done.
      * destruct H as (_ & w' & Hw' & Hs'). rewrite Hw' in Hd. simplify_eq.
        rewrite Hs' in Hs. destruct Hs as [?|[?|?]]; done.
    + intros [?|[?|?]]; congruence.
    + intros _ _ _. eauto.
  - pose proof (handleVerifyChallenge_cases (counted wd r now) (Get (Query r) "apiKey")
                  r now) as H.
    cbv zeta in H. change (server (counted wd r now)) with (server wd) in H.
    change (powLog (counted wd r now)) with (powLog wd) in H.
    split_and!.
    + destruct H as [[-> _]|[(p & e & _ & _ & _ & _ & Hlog & _)|(p & v & _ & Hlog & _)]].
      * by left.
      * right. rewrite Hlog, Hroute. split_and!; eauto.
      * right. rewrite Hlog, Hroute. split_and!; eauto.
    + intros w Hd Hs.
      destruct H as [[-> [(w' & Hw' & Hs')|(reason & Hp)]]|
                     [(p & e & _ & _ & _ & _ & _ & w' & Hw' & Hs')|
                      (p & v & _ & _ & _ & _ & _ & Ho & _)]]; try done; exfalso.
      * rewrite Hw' in Hd. simplify_eq. rewrite Hs' in Hs. destruct Hs as [?|[?|?]]; done.
      * rewrite Ho in Hd. simplify_eq. destruct v; destruct Hs as [?|[?|?]]; done.
    + intros [?|[?|?]]; congruence.
    + intros ?. congruence.
Qed.

(** X21.  The root page needs no credential: a request to the root route
    that the rate limiter admits is answered with the page of totals
    whatever its query, origin and body are, and changes nothing but the
    entry of its address in the rate limiter. *)
Theorem root_page_needs_no_credential (wd : World) (r : Request) (now rnd : Z) :
  route r = RouteRoot ->
  (LimitByIP (GetRealIP r) MaxRequestsPerIP RequestLimitWindow
     (ipLimits (rateLimiter wd)) now).1 = true ->
  let res := ServeHTTP wd r now rnd in
  res.2 = Done (handleRoot (server wd) newWriter) /\
  server res.1 = server wd /\ cm res.1 = cm wd /\ powLog res.1 = powLog wd.
Proof.
  intros Hroute Hadm. cbv zeta. unfold ServeHTTP, RateLimitMiddleware.
  destruct (LimitByIP (GetRealIP r) MaxRequestsPerIP RequestLimitWindow
              (ipLimits (rateLimiter wd)) now) as [allowed store].
  cbn [fst] in Hadm. subst allowed. cbn [negb]. rewrite Hroute. done.
Qed.

End CollaboratorCalls.

(** X21 at a root request that carries no credential. *)
Lemma root_page_needs_no_credential_witness :
  (ServeHTTP (E := Sample.env) Scenario.world0
     {| route := RouteRoot; Query := ∅; Header := ∅; RemoteAddr := Scenario.peer;
        Body := None |} Scenario.t0 0).2
  = Done (handleRoot (server Scenario.world0) newWriter).
Proof.
  refine (proj1 (root_page_needs_no_credential (E := Sample.env) Scenario.world0
                   {| route := RouteRoot; Query := ∅; Header := ∅;
                      RemoteAddr := Scenario.peer; Body := None |} Scenario.t0 0 _ _)).
  - reflexivity.
  - vm_compute. reflexivity.
Defined.
